(** * claude-viz: the live state synchronisation core

    A shallow embedding of the heading outline extractor
    ([parsers/markdown.ts]), the update hub's plan history ([server.ts])
    and the todo watcher ([watchers/todo-watcher.ts]), with the properties
    the specification states about them.

    Modelling conventions.
    - A JavaScript string is a [string] whose characters are the code
      units below 256 (Latin-1); the ECMAScript functions used by the
      sources ([split], [join], [toLowerCase], [endsWith], [slice],
      [trim] and the regular expressions) are written out on that
      alphabet.
    - A thrown exception is [None]; every [try]/[catch] of the sources
      catches all exceptions alike.
    - Millisecond time stamps ([Date.now()], [mtimeMs]) are integers [Z];
      the sources only store and compare them.
    - The numbers computed by [calculateStats] are IEEE 754 binary64
      values ([spec_float] at precision 53). *)

From Stdlib Require Import ZArith Lia Ascii Floats.SpecFloat.
From stdpp Require Import gmap strings list sorting.

Local Open Scope Z_scope.
Local Open Scope nat_scope.

(** ** JavaScript strings *)

Module JsString.

Definition code (c : ascii) : nat := nat_of_ascii c.

Definition in_range (lo hi : nat) (c : ascii) : bool :=
  (lo <=? code c) && (code c <=? hi).

Definition is_code (n : nat) (c : ascii) : bool := code c =? n.

(** [\d], [[a-z0-9]], [\s] and the characters [.] does not match. *)
Definition is_digit (c : ascii) : bool := in_range 48 57 c.

Definition is_lower_alnum (c : ascii) : bool :=
  in_range 97 122 c || in_range 48 57 c.

Definition is_space (c : ascii) : bool :=
  in_range 9 13 c || is_code 32 c || is_code 160 c.

Definition is_line_terminator (c : ascii) : bool :=
  is_code 10 c || is_code 13 c.

Definition newline : ascii := ascii_of_nat 10.

Fixpoint forallb (p : ascii → bool) (s : string) : bool :=
  match s with
  | "" => true
  | String c s' => p c && forallb p s'
  end.

Fixpoint existsb (p : ascii → bool) (s : string) : bool :=
  match s with
  | "" => false
  | String c s' => p c || existsb p s'
  end.

Fixpoint map (f : ascii → ascii) (s : string) : string :=
  match s with
  | "" => ""
  | String c s' => String (f c) (map f s')
  end.

Fixpoint concat (l : list string) : string :=
  match l with
  | [] => ""
  | s :: l' => s +:+ concat l'
  end.

(** Longest prefix of characters satisfying [p], and the rest. *)
Fixpoint span (p : ascii → bool) (s : string) : string * string :=
  match s with
  | "" => ("", "")
  | String c s' =>
      if p c then let '(a, b) := span p s' in (String c a, b)
      else ("", s)
  end.

Fixpoint last (s : string) : option ascii :=
  match s with
  | "" => None
  | String c "" => Some c
  | String _ s' => last s'
  end.

(** [s.slice(0, -1)] *)
Fixpoint drop_last (s : string) : string :=
  match s with
  | "" => ""
  | String c "" => ""
  | String c s' => String c (drop_last s')
  end.

(** [s.slice(-1)] *)
Definition slice_last (s : string) : string :=
  match last s with
  | Some c => String c ""
  | None => ""
  end.

(** [s.endsWith(suffix)] *)
Definition endsWith (s suffix : string) : bool :=
  let n := String.length s in
  let m := String.length suffix in
  (m <=? n) && bool_decide (String.substring (n - m) m s = suffix).

(** [s.split(sep)] for a separator of one character. *)
Fixpoint split (sep : ascii) (s : string) : list string :=
  match s with
  | "" => [""]
  | String c s' =>
      if bool_decide (c = sep) then "" :: split sep s'
      else match split sep s' with
           | [] => [String c ""]
           | w :: ws => String c w :: ws
           end
  end.

(** [l.join(sep)] *)
Fixpoint join (sep : string) (l : list string) : string :=
  match l with
  | [] => ""
  | [w] => w
  | w :: ws => w +:+ sep +:+ join sep ws
  end.

(** [s.toLowerCase()] on Latin-1: [A-Z] and the accented capitals
    U+00C0..U+00DE (without the multiplication sign U+00D7) move up by
    32, everything else stays. *)
Definition lower_char (c : ascii) : ascii :=
  if in_range 65 90 c
     || (in_range 192 222 c && negb (is_code 215 c))
  then ascii_of_nat (code c + 32)
  else c.

Definition toLowerCase (s : string) : string := map lower_char s.

(** [s.trim()] *)
Fixpoint trim_end (s : string) : string :=
  match s with
  | "" => ""
  | String c s' =>
      match trim_end s' with
      | "" => if is_space c then "" else String c ""
      | t => String c t
      end
  end.

Definition trim (s : string) : string := trim_end (snd (span is_space s)).

End JsString.

(** ** The data model ([types.ts]) *)

Module Types.

Inductive UpdateType := created | modified | deleted.

Record PlanFile := mkPlanFile {
  filename : string;
  path : string;
  file_content : string;
  lastModified : Z;
}.

Record PlanUpdate := mkPlanUpdate {
  type : UpdateType;
  file : PlanFile;
  timestamp : Z;
}.

Record Version := mkVersion {
  version_content : string;
  version_timestamp : Z;
}.

Record PlanHistory := mkPlanHistory {
  history_filename : string;
  versions : list Version;
}.

Record PlanSection := mkPlanSection {
  level : nat;
  title : string;
  content : string;
  id : string;
}.

Inductive Status := pending | in_progress | completed.

Record TodoTask := mkTodoTask {
  task_content : string;
  activeForm : string;
  status : Status;
  task_timestamp : option Z;
}.

Record TodoState := mkTodoState {
  sessionId : string;
  tasks : list TodoTask;
  lastUpdated : Z;
}.

Record TodoStats := mkTodoStats {
  total : nat;
  stats_pending : nat;
  stats_inProgress : nat;
  stats_completed : nat;
  completionPercentage : spec_float;
}.

#[global] Instance UpdateType_eq_dec : EqDecision UpdateType.
Proof. solve_decision. Defined.

#[global] Instance Status_eq_dec : EqDecision Status.
Proof. solve_decision. Defined.

End Types.

(** ** The heading outline extractor ([parsers/markdown.ts]) *)

Module Markdown.
Import JsString Types.

(** [line.match(/^(#{1,6})\s+(.+)$/)]: the number of [#] and the text
    captured by [(.+)].  [\s+] is greedy; when nothing follows the white
    space it gives its last character back to [(.+)].  [.] matches no
    line terminator and [$] is the end of the string. *)
Definition headingMatch (line : string) : option (nat * string) :=
  let '(hashes, rest) := span (is_code 35) line in
  let n := String.length hashes in
  if (1 <=? n) && (n <=? 6) then
    let '(ws, text) := span is_space rest in
    match ws, text with
    | "", _ => None
    | _, "" =>
        match last ws with
        | Some c =>
            if (2 <=? String.length ws) && negb (is_line_terminator c)
            then Some (n, String c "")
            else None
        | None => None
        end
    | _, _ =>
        if existsb is_line_terminator text then None else Some (n, text)
    end
  else None.

Definition isHeading (line : string) : bool :=
  match headingMatch line with Some _ => true | None => false end.

(** [s.replace(/[^a-z0-9]+/g, '-')]: [in_run] tells that the previous
    character belonged to the run being replaced. *)
Fixpoint replace_go (in_run : bool) (s : string) : string :=
  match s with
  | "" => ""
  | String c s' =>
      if is_lower_alnum c then String c (replace_go false s')
      else if in_run then replace_go true s'
      else String "-" (replace_go true s')
  end.

Definition replace_non_alnum (s : string) : string := replace_go false s.

(** [title.toLowerCase().replace(/[^a-z0-9]+/g, '-')] *)
Definition slug (title : string) : string :=
  replace_non_alnum (toLowerCase title).

(** *** The slug rule in the words of the specification

    A string is cut into its maximal runs: blocks that are not empty,
    whose characters are all inside or all outside [[a-z0-9]], and
    whose kind changes from each block to the next. *)
Definition Block : Type := bool * string.

Definition is_run (b : Block) : Prop :=
  b.2 ≠ "" ∧ forallb (λ c, bool_decide (is_lower_alnum c = b.1)) b.2 = true.

Fixpoint alternating (bs : list Block) : Prop :=
  match bs with
  | b1 :: rest =>
      match rest with
      | b2 :: _ => b1.1 ≠ b2.1 ∧ alternating rest
      | [] => True
      end
  | [] => True
  end.

Definition maximal_runs (s : string) (bs : list Block) : Prop :=
  concat (snd <$> bs) = s ∧ Forall is_run bs ∧ alternating bs.

(** A run inside [[a-z0-9]] is kept, a run outside becomes one hyphen. *)
Definition render (b : Block) : string := if b.1 then b.2 else "-".

Definition hyphenate (bs : list Block) : string := concat (render <$> bs).

(** The run decomposition as a function. *)
Fixpoint runs (s : string) : list Block :=
  match s with
  | "" => []
  | String c s' =>
      match runs s' with
      | (k, r) :: bs =>
          if bool_decide (is_lower_alnum c = k)
          then (k, String c r) :: bs
          else (is_lower_alnum c, String c "") :: (k, r) :: bs
      | [] => [(is_lower_alnum c, String c "")]
      end
  end.

(** *** Sections

    The loop of [parsePlan] over the lines, as a left fold: the state is
    the sections pushed so far, [currentSection], [currentContent] and
    [steps].  The rendered [html] comes from the [marked] library and is
    no part of this model. *)
Record ScanState := mkScanState {
  sections : list PlanSection;
  currentSection : option PlanSection;
  currentContent : list string;
  steps : list string;
}.

Definition emptyScan : ScanState := mkScanState [] None [] [].

Definition with_content (s : PlanSection) (body : list string) : PlanSection :=
  mkPlanSection (level s) (title s) (join (String newline "") body) (id s).

(** [line.match(/^\d+\.\s/) || line.match(/^[-*]\s/)] *)
Definition isStepLine (line : string) : bool :=
  (let '(ds, rest) := span is_digit line in
   match ds, rest with
   | String _ _, String dot (String w _) => is_code 46 dot && is_space w
   | _, _ => false
   end)
  || match line with
     | String m (String w _) => (is_code 45 m || is_code 42 m) && is_space w
     | _ => false
     end.

(** [line.replace(re, '')] where [re] matches, at the start of the line,
    digits and a period, or one hyphen, or one asterisk, and then all
    the white space that follows. *)
Definition stripMarker (line : string) : string :=
  let '(ds, rest) := span is_digit line in
  match ds, rest with
  | String _ _, String dot after =>
      if is_code 46 dot then snd (span is_space after)
      else line
  | _, _ =>
      match line with
      | String m after =>
          if is_code 45 m || is_code 42 m then snd (span is_space after)
          else line
      | "" => line
      end
  end.

Definition scanLine (st : ScanState) (line : string) : ScanState :=
  match headingMatch line with
  | Some (lvl, ttl) =>
      let saved :=
        match currentSection st with
        | Some cur => sections st ++ [with_content cur (currentContent st)]
        | None => sections st
        end in
      mkScanState saved (Some (mkPlanSection lvl ttl "" (slug ttl))) []
                  (steps st)
  | None =>
      match currentSection st with
      | Some cur =>
          mkScanState (sections st) (Some cur) (currentContent st ++ [line])
            (if isStepLine line then
               let step := trim (stripMarker line) in
               if bool_decide (step = "") then steps st
               else steps st ++ [step]
             else steps st)
      | None => st
      end
  end.

Definition finish (st : ScanState) : list PlanSection :=
  match currentSection st with
  | Some cur => sections st ++ [with_content cur (currentContent st)]
  | None => sections st
  end.

Definition scan (lines : list string) : ScanState :=
  foldl scanLine emptyScan lines.

(** The [sections] and [steps] of [parsePlan(markdown)]. *)
Definition parsePlan_sections (markdown : string) : list PlanSection :=
  finish (scan (split newline markdown)).

Definition parsePlan_steps (markdown : string) : list string :=
  steps (scan (split newline markdown)).

(** *** The round trip in the words of the specification

    The heading lines are the lines the loop strips; the text is put
    together again from each heading line followed by the content
    recorded for its section, and compared with the input from its
    first heading line on. *)
Definition headingLines (markdown : string) : list string :=
  List.filter isHeading (split newline markdown).

Fixpoint dropPreamble (lines : list string) : list string :=
  match lines with
  | [] => []
  | line :: rest => if isHeading line then lines else dropPreamble rest
  end.

Definition afterPreamble (markdown : string) : string :=
  join (String newline "") (dropPreamble (split newline markdown)).

Definition reassemble (headings : list string) (secs : list PlanSection)
  : string :=
  join (String newline "")
       (mjoin (zip_with (λ h s, [h; content s]) headings secs)).

(** Every heading line is followed by a line that is no heading, so
    that every section has a body line. *)
Fixpoint headings_have_body (lines : list string) : bool :=
  match lines with
  | [] => true
  | line :: rest =>
      (negb (isHeading line)
       || match rest with
          | next :: _ => negb (isHeading next)
          | [] => false
          end)
      && headings_have_body rest
  end.

(** The lines grouped by heading: the lines before the first heading,
    and for each heading its line, level, title and body lines. *)
Record Group := mkGroup {
  heading_line : string;
  heading_level : nat;
  heading_title : string;
  body : list string;
}.

Fixpoint group (lines : list string) : list string * list Group :=
  match lines with
  | [] => ([], [])
  | line :: rest =>
      let '(pre, gs) := group rest in
      match headingMatch line with
      | Some (lvl, ttl) => ([], mkGroup line lvl ttl pre :: gs)
      | None => (line :: pre, gs)
      end
  end.

Definition sectionOf (g : Group) : PlanSection :=
  mkPlanSection (heading_level g) (heading_title g)
                (join (String newline "") (body g))
                (slug (heading_title g)).

End Markdown.

(** ** The update hub ([server.ts]) *)

Module Server.
Import Types.

(** A connected client of [/api/stream] is named by a number. *)
Definition Client : Type := nat.

Inductive Message :=
| PlanMessage (data : PlanUpdate)
| TodoMessage (data : TodoState).

(** The state of [startServer]: the [planHistory] map and the set of
    [clients], kept in insertion order as a JavaScript [Set] iterates
    it. *)
Record Hub := mkHub {
  planHistory : gmap string PlanHistory;
  clients : list Client;
}.

Definition initial : Hub := mkHub ∅ [].

(** [broadcastUpdate]: one frame written to every client. *)
Definition broadcastUpdate (h : Hub) (message : Message)
  : list (Client * Message) :=
  (λ client, (client, message)) <$> clients h.

(** [versions.shift()] *)
Definition shift {A} (l : list A) : list A := tail l.

(** The ['update'] handler of the plan watcher. *)
Definition recordUpdate (update : PlanUpdate)
    (hist : gmap string PlanHistory) : gmap string PlanHistory :=
  if decide (type update ≠ deleted) then
    let history :=
      default (mkPlanHistory (filename (file update)) [])
              (hist !! filename (file update)) in
    let pushed :=
      versions history
      ++ [mkVersion (file_content (file update)) (timestamp update)] in
    let kept := if 10 <? length pushed then shift pushed else pushed in
    <[filename (file update) := mkPlanHistory (history_filename history) kept]>
      hist
  else hist.

Definition onPlanUpdate (h : Hub) (update : PlanUpdate)
  : Hub * list (Client * Message) :=
  let h' := mkHub (recordUpdate update (planHistory h)) (clients h) in
  (h', broadcastUpdate h' (PlanMessage update)).

(** The ['update'] handler of the todo watcher, for a state that is
    not [null]; on [null] it throws before it broadcasts, which
    [ServerMore.deliverAll] accounts for. *)
Definition onTodoUpdate (h : Hub) (state : TodoState)
  : Hub * list (Client * Message) :=
  (h, broadcastUpdate h (TodoMessage state)).

(** [clients.add(res)] and [clients.delete(res)] *)
Definition connect (h : Hub) (c : Client) : Hub :=
  mkHub (planHistory h)
        (if bool_decide (c ∈ clients h) then clients h else clients h ++ [c]).

Definition disconnect (h : Hub) (c : Client) : Hub :=
  mkHub (planHistory h) (filter (λ c', c' ≠ c) (clients h)).

(** What reaches the hub, in the order it is processed. *)
Inductive Event :=
| PlanEvent (update : PlanUpdate)
| TodoEvent (state : TodoState)
| Connect (c : Client)
| Disconnect (c : Client).

Definition step (h : Hub) (e : Event) : Hub :=
  match e with
  | PlanEvent update => (onPlanUpdate h update).1
  | TodoEvent state => (onTodoUpdate h state).1
  | Connect c => connect h c
  | Disconnect c => disconnect h c
  end.

Definition run (h : Hub) (events : list Event) : Hub := foldl step h events.

(** [GET /api/plans/:filename/history]; [None] is the 404 answer. *)
Definition getHistory (h : Hub) (name : string) : option PlanHistory :=
  planHistory h !! name.

(** The versions held for a file name, none if it has no history. *)
Definition versionsOf (h : Hub) (name : string) : list Version :=
  match getHistory h name with
  | Some history => versions history
  | None => []
  end.

(** The [{content, timestamp}] pairs of the non-deleted updates of one
    file name among the events, in arrival order. *)
Definition arrival (name : string) (e : Event) : option Version :=
  match e with
  | PlanEvent update =>
      if decide (type update ≠ deleted ∧ filename (file update) = name)
      then Some (mkVersion (file_content (file update)) (timestamp update))
      else None
  | _ => None
  end.

Definition arrivals (name : string) (events : list Event) : list Version :=
  omap (arrival name) events.

(** The last ten elements of a list. *)
Definition last10 {A} (l : list A) : list A := drop (length l - 10) l.

End Server.

(** ** The todo watcher ([watchers/todo-watcher.ts]) *)

Module TodoWatcher.
Import JsString Types.

(** *** What the watcher reads *)

(** A value [JSON.parse] can return. *)
#[warnings="-register-all"] Inductive json :=
| JNull
| JBool (b : bool)
| JNum (x : spec_float)
| JStr (s : string)
| JArr (items : list json)
| JObj (fields : list (string * json)).

(** A snapshot of the todos directory: [fs.readdir], [fs.stat] (its
    [mtimeMs]) and [fs.readFile], each of which may throw. *)
Record Dir := mkDir {
  readdir : option (list string);
  stat : string → option Z;
  readFile : string → option string;
}.

(** [value[key]] for the keys [content] and [status], which no
    prototype defines: [undefined] is [Some None], and reading a
    property of [null] throws. *)
Fixpoint lookup_field (key : string) (fields : list (string * json))
  : option json :=
  match fields with
  | [] => None
  | (k, v) :: rest => if bool_decide (k = key) then Some v
                      else lookup_field key rest
  end.

Definition prop (value : json) (key : string) : option (option json) :=
  match value with
  | JNull => None
  | JObj fields => Some (lookup_field key fields)
  | _ => Some None
  end.

(** *** [generateActiveForm] *)

(** [/[^aeiou][aeiou][^aeiou]$/] *)
Definition is_aeiou (c : ascii) : bool :=
  is_code 97 c || is_code 101 c || is_code 105 c || is_code 111 c
  || is_code 117 c.

Fixpoint matches_cvc (word : string) : bool :=
  match word with
  | String a (String b (String c "")) =>
      negb (is_aeiou a) && is_aeiou b && negb (is_aeiou c)
  | String _ rest => matches_cvc rest
  | "" => false
  end.

(** The branches that compute [activeWord] from [firstWord]. *)
Definition activeWord (firstWord : string) : string :=
  if endsWith firstWord "e" then drop_last firstWord +:+ "ing"
  else if matches_cvc firstWord
       then firstWord +:+ slice_last firstWord +:+ "ing"
       else firstWord +:+ "ing".

Definition generateActiveForm (content : string) : string :=
  match split " " content with
  | [] => content
  | firstWord :: rest => activeWord firstWord +:+ " " +:+ join " " rest
  end.

(** The derivation in the words of the specification: split on
    spaces, inflect the first word, join it again with the remaining
    words. *)
Definition activeForm_rejoined (content : string) : string :=
  match split " " content with
  | [] => content
  | firstWord :: rest => join " " (activeWord firstWord :: rest)
  end.

(** *** Mapping the external records *)

(** The conditional on [todo.status]. *)
Definition mapStatus (status : option json) : Status :=
  match status with
  | Some (JStr s) =>
      if bool_decide (s = "pending") then pending
      else if bool_decide (s = "in_progress") then in_progress
      else completed
  | _ => completed
  end.

(** The callback of [claudeTodos.map]: [generateActiveForm] calls
    [content.split], which throws unless [todo.content] is a string. *)
Definition mapTodo (mtime : Z) (todo : json) : option TodoTask :=
  match prop todo "content", prop todo "status" with
  | Some (Some (JStr content)), Some status =>
      Some (mkTodoTask content (generateActiveForm content)
                       (mapStatus status) (Some mtime))
  | _, _ => None
  end.

(** [claudeTodos.map(...)]: only an array has a callable [map]. *)
Definition mapTodos (mtime : Z) (claudeTodos : json)
  : option (list TodoTask) :=
  match claudeTodos with
  | JArr items => mapM (mapTodo mtime) items
  | _ => None
  end.

(** [name.split('-')[0]] *)
Definition sessionIdOf (name : string) : string :=
  match split "-" name with
  | first :: _ => first
  | [] => name
  end.

(** [array.sort(cmp)] is stable; this is the stable insertion sort for
    a comparator given as "[cmp(a, b) > 0]". *)
Fixpoint insert_sorted {A} (after : A → A → bool) (x : A) (l : list A)
  : list A :=
  match l with
  | [] => [x]
  | y :: l' => if after x y then y :: insert_sorted after x l' else x :: l
  end.

Definition sort {A} (after : A → A → bool) (l : list A) : list A :=
  foldr (insert_sorted after) [] l.

Definition isJsonFile (f : string) : bool := endsWith f ".json".

(** The comparator [(a, b) => key(b) - key(a)] as "[cmp(a, b) > 0]",
    and the order it sorts into. *)
Definition after_key {A} (key : A → Z) (a b : A) : bool :=
  (0 <? key b - key a)%Z.

Definition descending {A} (key : A → Z) (a b : A) : Prop :=
  (key b ≤ key a)%Z.

Section WithParser.

(** [JSON.parse]; [None] when it throws a [SyntaxError]. *)
Variable JSON_parse : string → option json.

(** *** [loadState] *)

Record FileStat := mkFileStat {
  stat_file : string;
  stat_mtime : Z;
}.

(** [(a, b) => b.mtime - a.mtime] is positive when [a] is older. *)
Definition older (a b : FileStat) : bool :=
  (0 <? stat_mtime b - stat_mtime a)%Z.

(** The body of the [try] block: the state it assigns to
    [this.currentState], or [None] when it throws. *)
Definition loadState_try (dir : Dir) (now : Z) : option TodoState :=
  files ← readdir dir;
  let jsonFiles := List.filter isJsonFile files in
  if bool_decide (length jsonFiles = 0) then
    Some (mkTodoState "no-session" [] now)
  else
    fileStats ← mapM (λ file, mkFileStat file <$> stat dir file) jsonFiles;
    mostRecent ← head (sort older fileStats);
    content ← readFile dir (stat_file mostRecent);
    claudeTodos ← JSON_parse content;
    tasks ← mapTodos (stat_mtime mostRecent) claudeTodos;
    Some (mkTodoState (sessionIdOf (stat_file mostRecent)) tasks
                      (stat_mtime mostRecent)).

(** [loadState]: from [this.currentState] before to after. *)
Definition loadState (dir : Dir) (now : Z) (currentState : option TodoState)
  : option TodoState :=
  match loadState_try dir now with
  | Some state => Some state
  | None => currentState
  end.

(** The file [loadState] selects, when it gets that far. *)
Definition selected (dir : Dir) : option FileStat :=
  files ← readdir dir;
  fileStats ← mapM (λ file, mkFileStat file <$> stat dir file)
                   (List.filter isJsonFile files);
  head (sort older fileStats).

(** *** [listSessions] *)

Record SessionInfo := mkSessionInfo {
  session_filename : string;
  session_lastUpdated : Z;
  taskCount : nat;
}.

#[global] Instance SessionInfo_eq_dec : EqDecision SessionInfo.
Proof. solve_decision. Defined.

Definition sessionInfo (dir : Dir) (file : string) : option SessionInfo :=
  mtime ← stat dir file;
  content ← readFile dir file;
  todos ← JSON_parse content;
  Some (mkSessionInfo file mtime
          match todos with JArr items => length items | _ => 0 end).

Definition less_recent (a b : SessionInfo) : bool :=
  (0 <? session_lastUpdated b - session_lastUpdated a)%Z.

Definition listSessions_try (dir : Dir) : option (list SessionInfo) :=
  files ← readdir dir;
  sessions ← mapM (sessionInfo dir) (List.filter isJsonFile files);
  Some (take 50 (sort less_recent
                   (List.filter (λ s, 0 <? taskCount s) sessions))).

Definition listSessions (dir : Dir) : list SessionInfo :=
  match listSessions_try dir with
  | Some sessions => sessions
  | None => []
  end.

(** *** [loadSession] *)

Definition loadSession (dir : Dir) (name : string) : option TodoState :=
  content ← readFile dir name;
  claudeTodos ← JSON_parse content;
  mtime ← stat dir name;
  tasks ← mapTodos mtime claudeTodos;
  Some (mkTodoState (sessionIdOf name) tasks mtime).

(** *** Predicates for the properties below *)

(** A listed entry stands for a JSON file of the directory that was
    read and parsed to an array with at least one record. *)
Definition session_with_tasks (dir : Dir) (s : SessionInfo) : Prop :=
  ∃ files content items,
    readdir dir = Some files
    ∧ session_filename s ∈ files
    ∧ isJsonFile (session_filename s) = true
    ∧ stat dir (session_filename s) = Some (session_lastUpdated s)
    ∧ readFile dir (session_filename s) = Some content
    ∧ JSON_parse content = Some (JArr items)
    ∧ items ≠ []
    ∧ taskCount s = length items.

(** [st] is the complete mapping of the array parsed from file [m]. *)
Definition loaded_from (dir : Dir) (m : FileStat) (st : TodoState) : Prop :=
  ∃ content items,
    readFile dir (stat_file m) = Some content
    ∧ JSON_parse content = Some (JArr items)
    ∧ mapM (mapTodo (stat_mtime m)) items = Some (tasks st)
    ∧ sessionId st = sessionIdOf (stat_file m)
    ∧ lastUpdated st = stat_mtime m.

(** The task made from a record carries the mapped status of that
    record. *)
Definition status_mapped (todo : json) (task : TodoTask) : Prop :=
  ∃ value, prop todo "status" = Some value ∧ status task = mapStatus value.

(** What the [try] block does after it has selected a file. *)
Definition load_selected (dir : Dir) (m : FileStat) : option TodoState :=
  content ← readFile dir (stat_file m);
  claudeTodos ← JSON_parse content;
  tasks ← mapTodos (stat_mtime m) claudeTodos;
  Some (mkTodoState (sessionIdOf (stat_file m)) tasks (stat_mtime m)).

End WithParser.

(** *** [calculateStats] *)

(** binary64 arithmetic and [Math.round]. *)
Definition prec : Z := 53.
Definition emax : Z := 1024.

Definition ofNat (n : nat) : spec_float :=
  binary_normalize prec emax (Z.of_nat n) 0 false.

Definition ofZ (z : Z) : spec_float :=
  binary_normalize prec emax z 0 false.

(** [Math.round(x)]: the integer nearest to [x], a tie going up. *)
Definition Math_round (x : spec_float) : spec_float :=
  match x with
  | S754_finite s m e =>
      if (0 <=? e)%Z then x
      else
        let v := if s then Z.neg m else Z.pos m in
        binary_normalize prec emax
          ((2 * v + 2 ^ (- e)) / 2 ^ (- e + 1))%Z 0 s
  | _ => x
  end.

Definition count (st : Status) (state : TodoState) : nat :=
  length (List.filter (λ t, bool_decide (status t = st)) (tasks state)).

Definition calculateStats (state : TodoState) : TodoStats :=
  let pending := count pending state in
  let inProgress := count in_progress state in
  let completed := count completed state in
  let total := length (tasks state) in
  mkTodoStats total pending inProgress completed
    (if 0 <? total
     then Math_round (SFmul prec emax
                        (SFdiv prec emax (ofNat completed) (ofNat total))
                        (ofNat 100))
     else ofNat 0).

(** The percentage in the words of the specification: the integer
    nearest to [100 * completed / total], a tie going up, and 0 for no
    tasks. *)
Definition roundedPercentage (completed total : nat) : Z :=
  if 0 <? total
  then ((200 * Z.of_nat completed + Z.of_nat total)
        / (2 * Z.of_nat total))%Z
  else 0%Z.

#[global] Instance spec_float_eq_dec : EqDecision spec_float.
Proof. solve_decision. Defined.

(** The percentage as a function of the two counts. *)
Definition percentage (completed total : nat) : spec_float :=
  if 0 <? total
  then Math_round (SFmul prec emax
                     (SFdiv prec emax (ofNat completed) (ofNat total))
                     (ofNat 100))
  else ofNat 0.

Definition exact_below (bound : nat) : bool :=
  List.forallb
    (λ t, List.forallb
            (λ c, bool_decide (percentage c t = ofZ (roundedPercentage c t)))
            (seq 0 (S t)))
    (seq 0 bound).

End TodoWatcher.

(** ** Sample data for the examples *)

Module Samples.
Import JsString Types Markdown Server TodoWatcher.

Definition nl : string := String newline "".

(** Two headings with nothing between them. *)
Definition two_headings : string := "# A" +:+ nl +:+ "# B".

(** The same with an empty line between them. *)
Definition two_headings_apart : string := "# A" +:+ nl +:+ nl +:+ "# B".

Definition sample_plan : string :=
  "notes" +:+ nl +:+ "# Plan" +:+ nl +:+ "intro" +:+ nl +:+ nl
  +:+ "## Steps" +:+ nl +:+ "1. build" +:+ nl +:+ "- test" +:+ nl.

(** A modification of [name] with the given content and time stamp. *)
Definition modification (name : string) (v : Version) : Event :=
  PlanEvent (mkPlanUpdate modified
               (mkPlanFile name name (version_content v) (version_timestamp v))
               (version_timestamp v)).

Definition deletion (name : string) (now : Z) : PlanUpdate :=
  mkPlanUpdate deleted (mkPlanFile name name "" now) now.

Definition fifteen : list Version :=
  (λ n, mkVersion (String (ascii_of_nat (65 + n)) "") (Z.of_nat n))
    <$> seq 0 15.

(** A stand-in for [JSON.parse] that knows three file contents. *)
Definition two_todos : json :=
  JArr [JObj [("content", JStr "Write tests"); ("status", JStr "pending");
              ("priority", JStr "high"); ("id", JStr "1")];
        JObj [("content", JStr "Run build"); ("status", JStr "bogus");
              ("priority", JStr "low"); ("id", JStr "2")]].

(** The records of [two_todos]. *)
Definition two_records : list json :=
  [JObj [("content", JStr "Write tests"); ("status", JStr "pending");
         ("priority", JStr "high"); ("id", JStr "1")];
   JObj [("content", JStr "Run build"); ("status", JStr "bogus");
         ("priority", JStr "low"); ("id", JStr "2")]].

Definition sample_parse (text : string) : option json :=
  if bool_decide (text = "TWO TODOS") then Some two_todos
  else if bool_decide (text = "NO TODOS") then Some (JArr [])
  else if bool_decide (text = "ONE TODO") then
    Some (JArr [JObj [("content", JStr "Deploy");
                      ("status", JStr "in_progress")]])
  else None.

Definition dir_of (entries : list (string * (Z * string))) : Dir :=
  mkDir (Some (entries.*1))
        (λ name, fst <$> (list_to_map entries : gmap string (Z * string)) !! name)
        (λ name, snd <$> (list_to_map entries : gmap string (Z * string)) !! name).

(** A well-formed directory. *)
Definition good_dir : Dir :=
  dir_of [("aaa-agent-aaa.json", (300%Z, "TWO TODOS"));
          ("bbb-agent-bbb.json", (100%Z, "NO TODOS"));
          ("ccc-agent-ccc.json", (200%Z, "ONE TODO"));
          ("notes.txt", (400%Z, "hello"))].

(** The same directory after its newest file was half written. *)
Definition torn_dir : Dir :=
  dir_of [("aaa-agent-aaa.json", (300%Z, "TWO TODOS"));
          ("bbb-agent-bbb.json", (100%Z, "NO TODOS"));
          ("ccc-agent-ccc.json", (500%Z, "[{"));
          ("notes.txt", (400%Z, "hello"))].

Definition task (st : Status) : TodoTask := mkTodoTask "Do it" "Doing it" st None.

(** [c] completed tasks followed by [p] pending ones. *)
Definition progress (c p : nat) : TodoState :=
  mkTodoState "sample" (replicate c (task completed) ++ replicate p (task pending)) 0.

End Samples.

(** ** Further parts of the sources *)

Module MarkdownMore.
Import JsString Types Markdown.

(** [n] number signs. *)
Fixpoint hashes (n : nat) : string :=
  match n with
  | 0 => ""
  | S k => String "#" (hashes k)
  end.

(** The characters of an id, and the absence of two hyphens in a row. *)
Definition is_id_char (c : ascii) : bool := is_lower_alnum c || is_code 45 c.

Fixpoint no_double_hyphen (s : string) : bool :=
  match s with
  | String a rest =>
      match rest with
      | String b _ => negb (is_code 45 a && is_code 45 b)
      | "" => true
      end
      && no_double_hyphen rest
  | "" => true
  end.

(** The first character, if any, is no white space. *)
Definition starts_at_text (s : string) : bool :=
  match s with
  | String c _ => negb (is_space c)
  | "" => true
  end.

#[global] Instance PlanSection_eq_dec : EqDecision PlanSection.
Proof. solve_decision. Defined.

(** *** [generateTOC] *)

(** The double quote. *)
Definition dq : string := String (ascii_of_nat 34) "".

(** [s.repeat(n)] for a count that is not negative. *)
Fixpoint repeat_string (s : string) (n : nat) : string :=
  match n with
  | 0 => ""
  | S k => s +:+ repeat_string s k
  end.

(** The entry pushed for one section; ['  '.repeat(level - 1)] throws
    a [RangeError] for a level below 1. *)
Definition tocEntry (sec : PlanSection) : option string :=
  if level sec =? 0 then None
  else Some (repeat_string "  " (level sec - 1)
             +:+ "<li><a href=" +:+ dq +:+ "#" +:+ id sec +:+ dq +:+ ">"
             +:+ title sec +:+ "</a></li>").

Definition generateTOC (secs : list PlanSection) : option string :=
  entries ← mapM tocEntry secs;
  Some (join (String newline "")
             (["<nav class=" +:+ dq +:+ "toc" +:+ dq +:+ ">";
               "<h3>Table of Contents</h3>"; "<ul>"]
              ++ entries ++ ["</ul>"; "</nav>"])).

(** The first line of a text is a heading. *)
Definition starts_with_heading (markdown : string) : bool :=
  match split newline markdown with
  | line :: _ => isHeading line
  | [] => false
  end.

Definition no_newline (line : string) : bool :=
  forallb (λ c, negb (bool_decide (c = newline))) line.

End MarkdownMore.

Module ServerMore.
Import Types Server.

(** The frames an event makes the hub write, and those of a sequence
    of events. *)
Definition frames (h : Hub) (e : Event) : list (Client * Message) :=
  match e with
  | PlanEvent update => (onPlanUpdate h update).2
  | TodoEvent state => (onTodoUpdate h state).2
  | Connect _ | Disconnect _ => []
  end.

Fixpoint written (h : Hub) (events : list Event) : list (Client * Message) :=
  match events with
  | [] => []
  | e :: rest => frames h e ++ written (step h e) rest
  end.

(** The messages written to one client. *)
Definition received (c : Client) (log : list (Client * Message))
  : list Message :=
  snd <$> filter (λ frame, frame.1 = c) log.

(** The message an event is broadcast as. *)
Definition message (e : Event) : option Message :=
  match e with
  | PlanEvent update => Some (PlanMessage update)
  | TodoEvent state => Some (TodoMessage state)
  | Connect _ | Disconnect _ => None
  end.

Definition messages (events : list Event) : list Message :=
  omap message events.

(** What the watchers and the transport hand to the hub.  The todo
    watcher emits [this.currentState], which is [null] ([None]) as
    long as no load has succeeded. *)
Inductive Emission :=
| PlanEmitted (update : PlanUpdate)
| TodoEmitted (state : option TodoState)
| Connected (c : Client)
| Disconnected (c : Client).

(** The frames written for a sequence of emissions.  On a [null] todo
    state the handler throws at [state.tasks.length], before
    [broadcastUpdate]: nothing is written for it, the exception is not
    caught and the process ends, so nothing is written after it. *)
Fixpoint deliverAll (h : Hub) (emissions : list Emission)
  : list (Client * Message) :=
  match emissions with
  | [] => []
  | PlanEmitted update :: rest =>
      (onPlanUpdate h update).2 ++ deliverAll (onPlanUpdate h update).1 rest
  | TodoEmitted (Some state) :: rest =>
      (onTodoUpdate h state).2 ++ deliverAll (onTodoUpdate h state).1 rest
  | TodoEmitted None :: _ => []
  | Connected c :: rest => deliverAll (connect h c) rest
  | Disconnected c :: rest => deliverAll (disconnect h c) rest
  end.

(** The messages of the emissions before the first [null] todo
    state. *)
Fixpoint sent (emissions : list Emission) : list Message :=
  match emissions with
  | [] => []
  | PlanEmitted update :: rest => PlanMessage update :: sent rest
  | TodoEmitted (Some state) :: rest => TodoMessage state :: sent rest
  | TodoEmitted None :: _ => []
  | Connected _ :: rest | Disconnected _ :: rest => sent rest
  end.

(** The emissions the handlers get through, as events of the hub. *)
Fixpoint handled (emissions : list Emission) : list Event :=
  match emissions with
  | [] => []
  | PlanEmitted update :: rest => PlanEvent update :: handled rest
  | TodoEmitted (Some state) :: rest => TodoEvent state :: handled rest
  | TodoEmitted None :: _ => []
  | Connected c :: rest => Connect c :: handled rest
  | Disconnected c :: rest => Disconnect c :: handled rest
  end.

#[global] Instance PlanFile_eq_dec : EqDecision PlanFile.
Proof. solve_decision. Defined.

#[global] Instance PlanUpdate_eq_dec : EqDecision PlanUpdate.
Proof. solve_decision. Defined.

#[global] Instance TodoTask_eq_dec : EqDecision TodoTask.
Proof. solve_decision. Defined.

#[global] Instance TodoState_eq_dec : EqDecision TodoState.
Proof. solve_decision. Defined.

#[global] Instance Event_eq_dec : EqDecision Event.
Proof. solve_decision. Defined.

#[global] Instance Emission_eq_dec : EqDecision Emission.
Proof. solve_decision. Defined.

End ServerMore.

(** ** The plan watcher ([watchers/plan-watcher.ts]) *)

Module PlanWatcher.
Import Types Markdown Server TodoWatcher.

(** [path.basename(p)] on POSIX paths: the last piece between slashes
    that is not empty, or the empty string. *)
Definition basename (p : string) : string :=
  default "" (list.last (filter (λ piece, piece ≠ "") (JsString.split "/" p))).

(** The [type] argument of [handleFileChange]. *)
Inductive ChangeType := Created | Modified.

Definition updateType (t : ChangeType) : UpdateType :=
  match t with Created => created | Modified => modified end.

(** [handleFileChange]: the update it emits, or [None] when the read
    or the stat throws and the event is dropped.  The files are looked
    up by path. *)
Definition handleFileChange (fs : Dir) (now : Z) (t : ChangeType)
    (filePath : string) : option PlanUpdate :=
  content ← readFile fs filePath;
  mtime ← stat fs filePath;
  Some (mkPlanUpdate (updateType t)
          (mkPlanFile (basename filePath) filePath content mtime) now).

(** [handleFileDelete]; the clock is read twice. *)
Definition handleFileDelete (now later : Z) (filePath : string) : PlanUpdate :=
  mkPlanUpdate deleted (mkPlanFile (basename filePath) filePath "" now) later.

(** The events of the file watcher and the handlers [start] binds to
    them. *)
Inductive WatchEvent :=
| Add (filePath : string)
| Change (filePath : string)
| Unlink (filePath : string).

Definition dispatch (fs : Dir) (now later : Z) (e : WatchEvent)
  : option PlanUpdate :=
  match e with
  | Add filePath => handleFileChange fs now Created filePath
  | Change filePath => handleFileChange fs now Modified filePath
  | Unlink filePath => Some (handleFileDelete now later filePath)
  end.

(** A watcher event as it reaches the hub of [server.ts]. *)
Definition deliver (h : Hub) (fs : Dir) (now later : Z) (e : WatchEvent)
  : Hub * list (Client * Message) :=
  match dispatch fs now later e with
  | Some update => onPlanUpdate h update
  | None => (h, [])
  end.

Definition isMdFile (f : string) : bool := JsString.endsWith f ".md".

Section WithDirectory.

(** [file => path.join(this.plansDir, file)] *)
Variable pathOf : string → string.

(** One turn of the loop of [listPlans]. *)
Definition planFile (fs : Dir) (file : string) : option PlanFile :=
  content ← readFile fs (pathOf file);
  mtime ← stat fs (pathOf file);
  Some (mkPlanFile file (pathOf file) content mtime).

Definition listPlans_try (fs : Dir) : option (list PlanFile) :=
  files ← readdir fs;
  plans ← mapM (planFile fs) (List.filter isMdFile files);
  Some (sort (after_key lastModified) plans).

Definition listPlans (fs : Dir) : list PlanFile :=
  match listPlans_try fs with
  | Some plans => plans
  | None => []
  end.

(** [GET /api/plans/:filename]: the plan with its parsed sections
    and steps; [None] is the 404 answer. *)
Definition getPlan (fs : Dir) (name : string)
  : option (PlanFile * list PlanSection * list string) :=
  plan ← List.find (λ p, bool_decide (filename p = name)) (listPlans fs);
  Some (plan, parsePlan_sections (file_content plan),
        parsePlan_steps (file_content plan)).

End WithDirectory.

(** A directory whose files are looked up by path. *)
Definition plans_fs : Dir :=
  mkDir (Some ["b.md"; "notes.txt"; "a.md"])
        (λ p, if bool_decide (p = "/plans/a.md") then Some 20%Z
              else if bool_decide (p = "/plans/b.md") then Some 10%Z
              else None)
        (λ p, if bool_decide (p = "/plans/a.md") then Some "# A"
              else if bool_decide (p = "/plans/b.md") then Some "# B"
              else None).

Definition in_plans (file : string) : string := "/plans/" +:+ file.

End PlanWatcher.

Module TodoMore.
Import Types TodoWatcher Samples.

(** A file whose second record is [null]. *)
Definition spoiled_todos : list json :=
  [JObj [("content", JStr "Write tests"); ("status", JStr "pending")];
   JNull].

Definition spoiled_parse (text : string) : option json :=
  if bool_decide (text = "SPOILED") then Some (JArr spoiled_todos)
  else sample_parse text.

Definition spoiled_dir : Dir :=
  dir_of [("aaa-agent-aaa.json", (300%Z, "TWO TODOS"));
          ("ddd-agent-ddd.json", (900%Z, "SPOILED"))].

End TodoMore.

(** ** The command line ([cli.ts]) *)

Module Cli.
Import JsString.

(** [parseInt(s, 10)]: leading white space is skipped, a sign is read,
    then the digits up to the first character that is none; [None] is
    [NaN].  The value is the exact integer: [cli.ts] only compares it
    with 1 and 65535, which the rounding of integers beyond 2^53 does
    not change. *)
Fixpoint digits_value (acc : Z) (ds : string) : Z :=
  match ds with
  | "" => acc
  | String d rest => digits_value (10 * acc + Z.of_nat (code d - 48)) rest
  end.

Definition parseInt10 (s : string) : option Z :=
  let body := snd (span is_space s) in
  let '(negative, unsigned) :=
    match body with
    | String sign rest =>
        if is_code 45 sign then (true, rest)
        else if is_code 43 sign then (false, rest)
        else (false, body)
    | "" => (false, body)
    end in
  match fst (span is_digit unsigned) with
  | "" => None
  | ds => Some (if negative then - digits_value 0 ds else digits_value 0 ds)%Z
  end.

Inductive View := PlanView | TodoView.

(** [view] and [port] while the arguments are read. *)
Record Options := mkOptions {
  view : option View;
  port : option Z;
}.

Definition defaults : Options := mkOptions None (Some 8888%Z).

(** The loop over [args]: the options at its end, or the code of the
    [process.exit] that leaves it. *)
Fixpoint readArgs (args : list string) (o : Options) : nat + Options :=
  match args with
  | [] => inr o
  | arg :: rest =>
      match rest with
      | next :: after =>
          if bool_decide (arg = "--port") && negb (bool_decide (next = ""))
          then readArgs after (mkOptions (view o) (parseInt10 next))
          else if bool_decide (arg = "plan")
          then readArgs rest (mkOptions (Some PlanView) (port o))
          else if bool_decide (arg = "todo")
          then readArgs rest (mkOptions (Some TodoView) (port o))
          else if bool_decide (arg = "--help") || bool_decide (arg = "-h")
          then inl 0
          else if negb (bool_decide (arg = "--port")) then inl 1
          else readArgs rest o
      | [] =>
          if bool_decide (arg = "plan")
          then inr (mkOptions (Some PlanView) (port o))
          else if bool_decide (arg = "todo")
          then inr (mkOptions (Some TodoView) (port o))
          else if bool_decide (arg = "--help") || bool_decide (arg = "-h")
          then inl 0
          else if negb (bool_decide (arg = "--port")) then inl 1
          else inr o
      end
  end.

(** What the program does: it exits with a code, or starts the server
    on a port and opens a view. *)
Inductive Outcome :=
| Exit (code : nat)
| Start (port : Z) (view : option View).

(** The whole of [cli.ts] up to [startServer(port)]; [env] is
    [process.env.PORT]. *)
Definition main (args : list string) (env : option string) : Outcome :=
  match readArgs args defaults with
  | inl code => Exit code
  | inr o =>
      let chosen :=
        match env with
        | Some text =>
            if negb (bool_decide (text = ""))
               && negb (bool_decide ("--port" ∈ args))
            then parseInt10 text
            else port o
        | None => port o
        end in
      match chosen with
      | Some p =>
          if (p <? 1)%Z || (65535 <? p)%Z then Exit 1 else Start p (view o)
      | None => Exit 1
      end
  end.

(** A number in decimal digits. *)
Fixpoint decimal_go (fuel : nat) (n : N) (acc : string) : string :=
  match fuel with
  | 0 => acc
  | S fuel' =>
      let acc' := String (ascii_of_N (48 + n mod 10)) acc in
      if (n <? 10)%N then acc' else decimal_go fuel' (n / 10) acc'
  end.

Definition decimal (n : N) : string := decimal_go (S (N.size_nat n)) n "".

#[global] Instance View_eq_dec : EqDecision View.
Proof. solve_decision. Defined.

#[global] Instance Outcome_eq_dec : EqDecision Outcome.
Proof. solve_decision. Defined.

(** The check that a port written in decimal after [--port] is the
    port the server is started on, run over [count] ports from
    [start] on. *)
Definition check_port (p : N) : bool :=
  bool_decide (main ["--port"; decimal p] None = Start (Z.of_N p) None).

Definition check_step (st : N * bool) : N * bool :=
  (N.succ st.1, st.2 && check_port st.1).

Definition checked_from (start count : N) : N * bool :=
  N.iter count check_step (start, true).

End Cli.

(** * Properties

    ** Facts about the string functions *)

Module JsStringFacts.
Import JsString.

Lemma append_cons (c : ascii) (s t : string) :
  String c s +:+ t = String c (s +:+ t).
Proof. reflexivity. Qed.

Lemma append_nil_l (t : string) : "" +:+ t = t.
Proof. reflexivity. Qed.

Lemma append_nil_r (s : string) : s +:+ "" = s.
Proof. induction s as [|c s IH]; [done|]. by rewrite append_cons, IH. Qed.

Lemma append_assoc (s t u : string) : (s +:+ t) +:+ u = s +:+ (t +:+ u).
Proof.
  induction s as [|c s IH]; [done|]. by rewrite !append_cons, IH.
Qed.

Lemma split_nonempty (sep : ascii) (s : string) : split sep s ≠ [].
Proof.
  destruct s as [|c s]; simpl; [done|].
  case_bool_decide; [done|]. by destruct (split sep s).
Qed.

Lemma forallb_append (p : ascii → bool) (s t : string) :
  forallb p (s +:+ t) = forallb p s && forallb p t.
Proof.
  induction s as [|c s IH]; [done|].
  rewrite append_cons. simpl. rewrite IH. by rewrite andb_assoc.
Qed.

(** Splitting a string that has no separator gives the string itself. *)
Lemma split_no_sep (sep : ascii) (s : string) :
  forallb (λ c, negb (bool_decide (c = sep))) s = true →
  split sep s = [s].
Proof.
  induction s as [|c s IH]; simpl; [done|].
  intros [Hc Hs]%andb_prop. rewrite (IH Hs).
  apply negb_true_iff in Hc. by rewrite Hc.
Qed.

Lemma split_append_sep (sep : ascii) (w s : string) :
  forallb (λ c, negb (bool_decide (c = sep))) w = true →
  split sep (w +:+ String sep s) = w :: split sep s.
Proof.
  induction w as [|c w IH]; simpl.
  - intros _. change (split sep (String sep s) = "" :: split sep s).
    simpl. by rewrite bool_decide_eq_true_2.
  - intros [Hc Hw]%andb_prop.
    change (split sep (String c (w +:+ String sep s))
            = String c w :: split sep s).
    simpl. apply negb_true_iff in Hc. rewrite Hc. by rewrite (IH Hw).
Qed.

(** [split] undoes [join] on a non-empty list of separator-free
    strings. *)
Lemma split_join (sep : ascii) (l : list string) :
  l ≠ [] →
  Forall (λ w, forallb (λ c, negb (bool_decide (c = sep))) w = true) l →
  split sep (join (String sep "") l) = l.
Proof.
  induction l as [|w l IH]; [done|]. intros _ Hall.
  apply Forall_cons in Hall as [Hw Hl].
  destruct l as [|w' l].
  - simpl. by apply split_no_sep.
  - change (join (String sep "") (w :: w' :: l))
      with (w +:+ String sep "" +:+ join (String sep "") (w' :: l)).
    rewrite append_cons, append_nil_l.
    rewrite split_append_sep by done. by rewrite IH.
Qed.

(** The pieces [split] returns contain no separator. *)
Lemma split_pieces (sep : ascii) (s : string) :
  Forall (λ w, forallb (λ c, negb (bool_decide (c = sep))) w = true)
         (split sep s).
Proof.
  induction s as [|c s IH]; simpl.
  - by repeat constructor.
  - case_bool_decide as Hc.
    + by constructor.
    + destruct (split sep s) as [|w ws]; simpl.
      * repeat constructor. simpl. by rewrite bool_decide_eq_false_2.
      * apply Forall_cons in IH as [Hw Hws]. constructor; [|done].
        simpl. by rewrite bool_decide_eq_false_2, Hw.
Qed.

Lemma join_split (sep : ascii) (s : string) :
  join (String sep "") (split sep s) = s.
Proof.
  induction s as [|c s IH]; simpl; [done|].
  case_bool_decide as Hc.
  - subst c. pose proof (split_nonempty sep s) as Hne.
    destruct (split sep s) as [|w ws]; [done|].
    change (join (String sep "") ("" :: w :: ws))
      with ("" +:+ String sep "" +:+ join (String sep "") (w :: ws)).
    by rewrite IH.
  - pose proof (split_nonempty sep s) as Hne.
    destruct (split sep s) as [|w ws]; [done|].
    destruct ws as [|w' ws].
    + simpl in *. by rewrite IH.
    + change (join (String sep "") (String c w :: w' :: ws))
        with (String c w +:+ String sep "" +:+ join (String sep "") (w' :: ws)).
      rewrite append_cons. f_equal. exact IH.
Qed.

End JsStringFacts.

(** ** Properties of the slug rule *)

Module SlugProps.
Import JsString JsStringFacts Markdown.

Lemma replace_go_kept (r rest : string) (in_run : bool) :
  forallb is_lower_alnum r = true →
  replace_go in_run (r +:+ rest)
  = r +:+ replace_go (match r with "" => in_run | _ => false end) rest.
Proof.
  revert in_run. induction r as [|c r IH]; intros in_run Hr; [done|].
  simpl in Hr. apply andb_prop in Hr as [Hc Hr].
  rewrite !append_cons. simpl. rewrite Hc. f_equal.
  rewrite (IH false Hr). by destruct r.
Qed.

Lemma replace_go_skipped (r rest : string) :
  forallb (λ c, negb (is_lower_alnum c)) r = true →
  replace_go true (r +:+ rest) = replace_go true rest.
Proof.
  induction r as [|c r IH]; intros Hr; [done|].
  simpl in Hr. apply andb_prop in Hr as [Hc Hr].
  rewrite append_cons. simpl. apply negb_true_iff in Hc. rewrite Hc.
  by apply IH.
Qed.

(** Once a run has been replaced, the flag only matters if the rest
    goes on with a character outside [[a-z0-9]]. *)
Lemma replace_go_flag (s : string) :
  match s with String c _ => is_lower_alnum c = true | "" => True end →
  replace_go true s = replace_go false s.
Proof. destruct s as [|c s]; [done|]. simpl. by intros ->. Qed.

Lemma is_run_class (k : bool) (r : string) :
  is_run (k, r) →
  if k then forallb is_lower_alnum r = true
  else forallb (λ c, negb (is_lower_alnum c)) r = true.
Proof.
  intros [_ Hr]. simpl in Hr. induction r as [|c r IH]; [by destruct k|].
  simpl in Hr. apply andb_prop in Hr as [Hc Hr].
  apply bool_decide_eq_true in Hc. specialize (IH Hr).
  destruct k; simpl; rewrite Hc; simpl; exact IH.
Qed.

(** What follows a run outside [[a-z0-9]] starts inside it (or is
    empty). *)
Lemma after_skipped_run (bs : list Block) :
  Forall is_run bs →
  match bs with b :: _ => b.1 = true | [] => True end →
  match concat (snd <$> bs) with
  | String c _ => is_lower_alnum c = true
  | "" => True
  end.
Proof.
  destruct bs as [|[k r] bs]; [done|]. simpl. intros Hall ->.
  apply Forall_cons in Hall as [Hrun _].
  pose proof (is_run_class _ _ Hrun) as Hr. destruct Hrun as [Hne _].
  simpl in *. destruct r as [|c r]; [done|].
  rewrite append_cons. simpl in Hr. by apply andb_prop in Hr as [-> _].
Qed.

Lemma hyphenate_runs (bs : list Block) :
  Forall is_run bs → alternating bs →
  replace_go false (concat (snd <$> bs)) = hyphenate bs.
Proof.
  induction bs as [|[k r] bs IH]; [done|]. intros Hall Halt.
  apply Forall_cons in Hall as [Hrun Hall].
  pose proof (is_run_class _ _ Hrun) as Hr. destruct Hrun as [Hne _].
  assert (alternating bs) as Halt'.
  { destruct bs; [done|]. by destruct Halt. }
  specialize (IH Hall Halt'). unfold hyphenate in *.
  rewrite !fmap_cons. simpl in *. destruct k.
  - rewrite replace_go_kept by done. destruct r; [done|]. by rewrite IH.
  - destruct r as [|c r]; [done|]. simpl in Hr.
    apply andb_prop in Hr as [Hc Hr]. apply negb_true_iff in Hc.
    rewrite append_cons. simpl. rewrite Hc.
    change ("-" +:+ concat (render <$> bs))
      with (String "-" (concat (render <$> bs))).
    f_equal. rewrite replace_go_skipped by done.
    rewrite replace_go_flag; [done|].
    apply after_skipped_run; [done|].
    destruct bs as [|[k' r'] bs]; [done|]. destruct Halt as [Hk _].
    simpl in *. by destruct k'.
Qed.

Lemma runs_maximal (s : string) : maximal_runs s (runs s).
Proof.
  induction s as [|c s (Hcat & Hall & Halt)]; [by repeat split|].
  simpl. destruct (runs s) as [|[k r] bs] eqn:Hruns.
  - simpl in Hcat. subst s. repeat split; simpl.
    repeat constructor; simpl; [done|]. by rewrite bool_decide_eq_true_2.
  - apply Forall_cons in Hall as [[Hne Hr] Hall]. simpl in *.
    case_bool_decide as Hk.
    + repeat split; simpl.
      * by rewrite append_cons, Hcat.
      * constructor; [|done]. split; simpl; [done|].
        by rewrite bool_decide_eq_true_2.
      * done.
    + repeat split; simpl.
      * by rewrite Hcat.
      * constructor; [|by constructor]. split; simpl; [done|].
        by rewrite bool_decide_eq_true_2.
      * done.
      * done.
Qed.

Example slug_title : slug "Title" = "title".
Proof. reflexivity. Qed.

(** C2, refuted as stated: the final exclamation mark is a run of its
    own and becomes a hyphen. *)
Lemma slug_step_1_build_not :
  slug "Step 1: Build!" ≠ "step-1-build".
Proof. by vm_compute. Qed.

(** C2 (as amended). The lower-cased title has a decomposition into
    maximal runs of characters inside and outside [[a-z0-9]]; for any
    such decomposition the id is the runs inside kept as they are and
    each run outside replaced by one hyphen; the title
    "Step 1: Build!" gives "step-1-build-". *)
Theorem slug_hyphenates_maximal_runs (title : string) :
  (∃ bs, maximal_runs (toLowerCase title) bs)
  ∧ (∀ bs, maximal_runs (toLowerCase title) bs → slug title = hyphenate bs)
  ∧ slug "Step 1: Build!" = "step-1-build-".
Proof.
  split; [|split].
  - exists (runs (toLowerCase title)). apply runs_maximal.
  - intros bs (Hcat & Hall & Halt). unfold slug, replace_non_alnum.
    rewrite <- Hcat. by apply hyphenate_runs.
  - reflexivity.
Qed.

Lemma slug_hyphenates_maximal_runs_witness :
  slug "Step 1: Build!"
  = hyphenate [(true, "step"); (false, " "); (true, "1"); (false, ": ");
               (true, "build"); (false, "!")].
Proof.
  apply (proj1 (proj2 (slug_hyphenates_maximal_runs "Step 1: Build!"))).
  split; [reflexivity|]. split.
  - repeat constructor; simpl; discriminate.
  - simpl. repeat split; discriminate.
Defined.

End SlugProps.

(** ** The sections of [parsePlan] *)

Module MarkdownProps.
Import JsString JsStringFacts Types Markdown Samples.

Lemma join_cons (sep w : string) (l : list string) :
  l ≠ [] → join sep (w :: l) = w +:+ sep +:+ join sep l.
Proof. by destruct l. Qed.

Lemma join_app (sep : string) (a b : list string) :
  a ≠ [] → b ≠ [] →
  join sep (a ++ b) = join sep a +:+ sep +:+ join sep b.
Proof.
  induction a as [|w a IH]; [done|]. intros _ Hb.
  destruct a as [|w' a].
  - simpl app. by rewrite join_cons.
  - change ((w :: w' :: a) ++ b) with (w :: (w' :: a) ++ b).
    rewrite !join_cons by done. rewrite IH by done.
    by rewrite !append_assoc.
Qed.

(** A joined body can be spliced back into the list of lines, if it
    has a line. *)
Lemma join_flatten (sep : string) (body rest : list string) :
  body ≠ [] → join sep (join sep body :: rest) = join sep (body ++ rest).
Proof.
  intros Hbody. destruct rest as [|r rest].
  - by rewrite app_nil_r.
  - rewrite join_cons by done. by rewrite join_app.
Qed.

(** The loop, started in any state, in terms of the groups. *)
Lemma finish_foldl (lines : list string) (st : ScanState) :
  finish (foldl scanLine st lines)
  = match currentSection st with
    | Some cur =>
        sections st
        ++ with_content cur (currentContent st ++ (group lines).1)
           :: (sectionOf <$> (group lines).2)
    | None => sections st ++ (sectionOf <$> (group lines).2)
    end.
Proof.
  revert st. induction lines as [|line lines IH]; intros st.
  - simpl. unfold finish. destruct (currentSection st); simpl.
    + by rewrite app_nil_r.
    + by rewrite app_nil_r.
  - simpl foldl. rewrite IH. simpl group.
    destruct (group lines) as [pre gs]. unfold scanLine.
    destruct (headingMatch line) as [[lvl ttl]|]; simpl.
    + destruct (currentSection st); simpl.
      * rewrite app_nil_r. by rewrite <- app_assoc.
      * done.
    + destruct (currentSection st) eqn:Hcur; simpl.
      * by rewrite <- app_assoc.
      * by rewrite Hcur.
Qed.

Lemma parsePlan_sections_group (markdown : string) :
  parsePlan_sections markdown
  = sectionOf <$> (group (split newline markdown)).2.
Proof. unfold parsePlan_sections, scan. by rewrite finish_foldl. Qed.

Lemma headingLines_group (lines : list string) :
  List.filter isHeading lines = heading_line <$> (group lines).2.
Proof.
  induction lines as [|line lines IH]; [done|].
  simpl. unfold isHeading in *. destruct (group lines) as [pre gs].
  destruct (headingMatch line) as [[lvl ttl]|]; simpl in *; by rewrite IH.
Qed.

Lemma dropPreamble_group (lines : list string) :
  dropPreamble lines
  = mjoin ((λ g, heading_line g :: body g) <$> (group lines).2)
  ∧ lines = (group lines).1 ++ dropPreamble lines.
Proof.
  induction lines as [|line lines [IH1 IH2]]; [done|].
  simpl. unfold isHeading. destruct (group lines) as [pre gs].
  destruct (headingMatch line) as [[lvl ttl]|]; simpl in *.
  - split; [|done]. f_equal. rewrite IH2 at 1. by rewrite IH1.
  - split; [done|]. by f_equal.
Qed.

Lemma bodies_nonempty (lines : list string) :
  headings_have_body lines = true →
  Forall (λ g, body g ≠ []) (group lines).2.
Proof.
  induction lines as [|line lines IH]; [by constructor|].
  simpl. intros [Hline Hrest]%andb_prop. specialize (IH Hrest).
  unfold isHeading in Hline.
  destruct lines as [|next lines]; simpl in *.
  - destruct (headingMatch line) as [[lvl ttl]|]; [done|]. by constructor.
  - destruct (group lines) as [pre gs].
    destruct (headingMatch next) as [[lvl' ttl']|];
      destruct (headingMatch line) as [[lvl ttl]|];
      simpl in *; try done; by constructor.
Qed.

Lemma reassemble_groups (gs : list Group) :
  reassemble (heading_line <$> gs) (sectionOf <$> gs)
  = join (String newline "")
         (mjoin ((λ g, [heading_line g; join (String newline "") (body g)])
                 <$> gs)).
Proof.
  unfold reassemble. f_equal. f_equal.
  induction gs as [|g gs IH]; [done|].
  rewrite !fmap_cons. simpl zip_with. by rewrite IH.
Qed.

Lemma join_groups (gs : list Group) :
  Forall (λ g, body g ≠ []) gs →
  join (String newline "")
       (mjoin ((λ g, [heading_line g; join (String newline "") (body g)])
               <$> gs))
  = join (String newline "")
         (mjoin ((λ g, heading_line g :: body g) <$> gs)).
Proof.
  induction gs as [|g gs IH]; [done|]. intros Hall.
  apply Forall_cons in Hall as [Hg Hgs]. specialize (IH Hgs).
  rewrite !fmap_cons. simpl mjoin.
  set (X := mjoin ((λ g0, [heading_line g0;
                           join (String newline "") (body g0)]) <$> gs)) in *.
  set (Y := mjoin ((λ g0, heading_line g0 :: body g0) <$> gs)) in *.
  assert (body g ++ Y ≠ []) as Hne by (by destruct (body g)).
  rewrite (join_cons _ _ (body g ++ Y)) by done.
  rewrite (join_cons _ _ (join (String newline "") (body g) :: X)) by done.
  f_equal. f_equal. rewrite join_flatten by done.
  destruct gs as [|g' gs]; [done|].
  assert (X ≠ []) as HX by done. assert (Y ≠ []) as HY by done.
  rewrite !join_app by done. by rewrite IH.
Qed.

(** The scenario of the specification: one heading and one body line. *)
Example parsePlan_title_body :
  parsePlan_sections ("# Title" +:+ nl +:+ "body")
  = [mkPlanSection 1 "Title" "body" "title"].
Proof. reflexivity. Qed.

(** The sections and heading lines do not tell whether a heading was
    followed by an empty line or by no line at all, so nothing
    computed from them gives back the lines of both inputs. *)
Lemma sections_forget_empty_body :
  parsePlan_sections two_headings = parsePlan_sections two_headings_apart
  ∧ headingLines two_headings = headingLines two_headings_apart
  ∧ afterPreamble two_headings ≠ afterPreamble two_headings_apart.
Proof. by repeat split. Qed.

(** C4, refuted as stated: for two headings in a row the text put
    together from the sections has an empty line after each heading
    that the input does not have. *)
Lemma round_trip_fails_without_body :
  reassemble (headingLines two_headings) (parsePlan_sections two_headings)
  ≠ afterPreamble two_headings.
Proof. by vm_compute. Qed.

(** C4 (as amended). When every heading line of the input is followed
    by at least one line that is no heading, putting each heading line
    back in front of its section's recorded content, in document
    order, gives the input from its first heading line on. *)
Theorem sections_round_trip (markdown : string) :
  headings_have_body (split newline markdown) = true →
  reassemble (headingLines markdown) (parsePlan_sections markdown)
  = afterPreamble markdown.
Proof.
  intros Hbody. unfold headingLines, afterPreamble.
  rewrite parsePlan_sections_group, headingLines_group.
  rewrite reassemble_groups.
  rewrite (proj1 (dropPreamble_group (split newline markdown))).
  by apply join_groups, bodies_nonempty.
Qed.

Lemma sections_round_trip_witness :
  reassemble (headingLines sample_plan) (parsePlan_sections sample_plan)
  = afterPreamble sample_plan.
Proof. apply (sections_round_trip sample_plan). reflexivity. Defined.

End MarkdownProps.

(** ** The plan history of the update hub *)

Module ServerProps.
Import Types Server Samples.

Lemma run_snoc (h : Hub) (events : list Event) (e : Event) :
  run h (events ++ [e]) = step (run h events) e.
Proof. unfold run. by rewrite foldl_snoc. Qed.

Lemma arrivals_snoc (name : string) (events : list Event) (e : Event) :
  arrivals name (events ++ [e])
  = arrivals name events ++ option_list (arrival name e).
Proof.
  unfold arrivals. rewrite omap_app. simpl. by destruct (arrival name e).
Qed.

Lemma last10_length {A} (l : list A) : length (last10 l) ≤ 10.
Proof. unfold last10. rewrite length_drop. lia. Qed.

(** Pushing onto the last ten and shifting when there are eleven gives
    the last ten again. *)
Lemma shift_drop {A} (l : list A) : shift l = drop 1 l.
Proof. by destruct l. Qed.

Lemma last10_push {A} (l : list A) (x : A) :
  (let pushed := last10 l ++ [x] in
   if 10 <? length pushed then shift pushed else pushed)
  = last10 (l ++ [x]).
Proof.
  unfold last10. cbv zeta. rewrite shift_drop.
  assert (length (l ++ [x]) = S (length l)) as Hlen
    by (rewrite length_app; simpl; lia).
  assert (length (drop (length l - 10) l ++ [x])
          = S (length l - (length l - 10))) as Hpushed
    by (rewrite length_app, length_drop; simpl; lia).
  rewrite Hlen, Hpushed.
  destruct (decide (10 ≤ length l)) as [Hge|Hlt].
  - replace (10 <? S (length l - (length l - 10))) with true
      by (symmetry; apply Nat.ltb_lt; lia).
    rewrite <- (drop_app_le l [x] (length l - 10)) by lia.
    rewrite drop_drop. f_equal. lia.
  - replace (10 <? S (length l - (length l - 10))) with false
      by (symmetry; apply Nat.ltb_ge; lia).
    replace (length l - 10) with 0 by lia.
    replace (S (length l) - 10) with 0 by lia. by rewrite !drop_0.
Qed.

Lemma versionsOf_recordUpdate_same (h : Hub) (update : PlanUpdate) :
  type update ≠ deleted →
  versionsOf (step h (PlanEvent update)) (filename (file update))
  = let pushed :=
      versionsOf h (filename (file update))
      ++ [mkVersion (file_content (file update)) (timestamp update)] in
    if 10 <? length pushed then shift pushed else pushed.
Proof.
  intros Hty. unfold versionsOf, getHistory. simpl. unfold recordUpdate.
  rewrite decide_True by done. rewrite lookup_insert_eq. simpl.
  by destruct (planHistory h !! filename (file update)).
Qed.

Lemma versionsOf_recordUpdate_other (h : Hub) (update : PlanUpdate)
    (name : string) :
  filename (file update) ≠ name →
  versionsOf (step h (PlanEvent update)) name = versionsOf h name.
Proof.
  intros Hne. unfold versionsOf, getHistory. simpl. unfold recordUpdate.
  case_decide; [|done]. by rewrite lookup_insert_ne.
Qed.

Lemma planHistory_deleted (h : Hub) (update : PlanUpdate) :
  type update = deleted →
  planHistory (step h (PlanEvent update)) = planHistory h.
Proof.
  intros Hty. simpl. unfold recordUpdate. by rewrite decide_False by naive_solver.
Qed.

(** The history kept for a name is the last ten arrivals for it. *)
Lemma versionsOf_run (events : list Event) (name : string) :
  versionsOf (run initial events) name = last10 (arrivals name events).
Proof.
  induction events as [|e events IH] using rev_ind; [done|].
  rewrite run_snoc, arrivals_snoc.
  destruct e as [update| | |];
    try (simpl; rewrite app_nil_r; exact IH).
  unfold arrival. case_decide as Hsel.
  - destruct Hsel as [Hty <-]. simpl option_list.
    rewrite <- last10_push, <- IH.
    by apply versionsOf_recordUpdate_same.
  - simpl option_list. rewrite app_nil_r, <- IH.
    destruct (decide (type update = deleted)) as [Hdel|Hty].
    + unfold versionsOf, getHistory.
      by rewrite (planHistory_deleted _ _ Hdel).
    + apply versionsOf_recordUpdate_other. naive_solver.
Qed.

Lemma arrivals_modifications (name : string) (vs : list Version) :
  arrivals name (modification name <$> vs) = vs.
Proof.
  induction vs as [|[c t] vs IH]; [done|].
  change (arrivals name (modification name <$> mkVersion c t :: vs))
    with (match arrival name (modification name (mkVersion c t)) with
          | Some v => v :: arrivals name (modification name <$> vs)
          | None => arrivals name (modification name <$> vs)
          end).
  rewrite IH. simpl. by rewrite decide_True.
Qed.

(** C1. Starting from the empty hub, after any sequence of events the
    versions held for any file name are at most ten; they are the
    [{content, timestamp}] pairs of the non-deleted updates of that
    name in arrival order, cut to the last ten; a further non-deleted
    update arriving at a full history drops the oldest version and
    appends the new one; and after fifteen modifications of one file
    the last ten are held, in arrival order. *)
Theorem plan_history_last_ten (events : list Event) (name : string) :
  let h := run initial events in
  length (versionsOf h name) ≤ 10
  ∧ versionsOf h name
    = drop (length (arrivals name events) - 10) (arrivals name events)
  ∧ (∀ update : PlanUpdate,
       type update ≠ deleted → filename (file update) = name →
       length (versionsOf h name) = 10 →
       versionsOf (run initial (events ++ [PlanEvent update])) name
       = tail (versionsOf h name)
         ++ [mkVersion (file_content (file update)) (timestamp update)])
  ∧ (∀ vs : list Version,
       length vs = 15 →
       versionsOf (run initial (modification name <$> vs)) name = drop 5 vs).
Proof.
  cbv zeta. repeat split.
  - rewrite versionsOf_run. apply last10_length.
  - apply versionsOf_run.
  - intros update Hty <- Hfull. rewrite run_snoc.
    rewrite versionsOf_recordUpdate_same by done. cbv zeta.
    rewrite length_app, Hfull.
    destruct (versionsOf (run initial events) (filename (file update)))
      as [|oldest kept]; [done|]. reflexivity.
  - intros vs Hvs. rewrite versionsOf_run, arrivals_modifications.
    unfold last10. by rewrite Hvs.
Qed.

Lemma plan_history_last_ten_witness :
  versionsOf (run initial (modification "a.md" <$> fifteen)) "a.md"
  = drop 5 fifteen.
Proof.
  apply (proj2 (proj2 (proj2 (plan_history_last_ten [] "a.md")))).
  reflexivity.
Defined.

(** C9. Processing a deleted update leaves the whole history map as it
    was, and so the history of every file name; an event that changes
    the history map is a plan update that is not a deletion. *)
Theorem deleted_update_keeps_history (h : Hub) :
  (∀ update : PlanUpdate,
     type update = deleted →
     planHistory (onPlanUpdate h update).1 = planHistory h
     ∧ ∀ name, getHistory (onPlanUpdate h update).1 name = getHistory h name)
  ∧ (∀ e : Event,
       planHistory (step h e) ≠ planHistory h →
       ∃ update, e = PlanEvent update ∧ type update ≠ deleted).
Proof.
  split.
  - intros update Hty.
    assert (planHistory (onPlanUpdate h update).1 = planHistory h) as Heq
      by exact (planHistory_deleted h update Hty).
    split; [done|]. intros name. unfold getHistory. by rewrite Heq.
  - intros [update| | |] Hchg; try done.
    exists update. split; [done|]. intros Hty.
    by apply Hchg, planHistory_deleted.
Qed.

Lemma deleted_update_keeps_history_witness :
  planHistory
    (onPlanUpdate (run initial (modification "a.md" <$> fifteen))
                  (deletion "a.md" 99)).1
  = planHistory (run initial (modification "a.md" <$> fifteen)).
Proof.
  apply (proj1 (deleted_update_keeps_history
                  (run initial (modification "a.md" <$> fifteen)))).
  reflexivity.
Defined.

End ServerProps.

(** ** The todo watcher *)

Module TodoProps.
Import JsString JsStringFacts Types TodoWatcher Samples.

(** *** Sorting *)

Section Sorting.
Context {A : Type} (key : A → Z).

Lemma insert_sorted_perm (x : A) (l : list A) :
  insert_sorted (after_key key) x l ≡ₚ x :: l.
Proof.
  induction l as [|y l IH]; simpl; [done|].
  destruct (after_key key x y); [|done].
  rewrite IH. apply Permutation_swap.
Qed.

Lemma sort_perm (l : list A) : sort (after_key key) l ≡ₚ l.
Proof.
  induction l as [|x l IH]; simpl; [done|].
  change (foldr (insert_sorted (after_key key)) [] l) with (sort (after_key key) l).
  by rewrite insert_sorted_perm, IH.
Qed.

Lemma insert_sorted_sorted (x : A) (l : list A) :
  StronglySorted (descending key) l →
  StronglySorted (descending key) (insert_sorted (after_key key) x l).
Proof.
  induction 1 as [|y l Hl IH Hy]; simpl.
  - by repeat constructor.
  - destruct (after_key key x y) eqn:Hxy; unfold after_key in Hxy.
    + apply Z.ltb_lt in Hxy. constructor; [done|].
      rewrite insert_sorted_perm. constructor; [|done].
      unfold descending. lia.
    + apply Z.ltb_ge in Hxy. constructor; [by constructor|].
      constructor; [unfold descending; lia|].
      eapply Forall_impl; [exact Hy|]. unfold descending. intros z Hz. lia.
Qed.

Lemma sort_sorted (l : list A) : StronglySorted (descending key) (sort (after_key key) l).
Proof.
  induction l as [|x l IH]; simpl; [constructor|].
  by apply insert_sorted_sorted.
Qed.

(** What [slice(0, n)] leaves out of a sorted list is not newer than
    anything it keeps. *)
Lemma take_sorted_newest (n : nat) (l : list A) (x : A) :
  StronglySorted (descending key) l → x ∈ l →
  x ∈ take n l ∨ (length (take n l) = n ∧ ∀ y, y ∈ take n l → (key x ≤ key y)%Z).
Proof.
  intros Hsorted Hx. rewrite <- (take_drop n l) in Hx, Hsorted.
  apply elem_of_app in Hx as [Hx|Hx]; [by left|]. right. split.
  - apply length_take_le. destruct (decide (n ≤ length l)); [done|].
    rewrite drop_ge in Hx by lia. by apply elem_of_nil in Hx.
  - intros y Hy.
    exact (StronglySorted_app_1_elem_of _ _ _ y x Hsorted Hy Hx).
Qed.

End Sorting.

(** *** [generateActiveForm] *)

Example activeForm_write_tests :
  generateActiveForm "Write tests" = "Writing tests".
Proof. reflexivity. Qed.

Example activeForm_run_build :
  generateActiveForm "Run build" = "Running build".
Proof. reflexivity. Qed.

(** With a second word the function joins the inflected first word and
    the remaining words with single spaces, as the specification
    says. *)
Lemma generateActiveForm_rejoined (content firstWord : string)
    (rest : list string) :
  split " " content = firstWord :: rest → rest ≠ [] →
  generateActiveForm content = activeForm_rejoined content.
Proof.
  intros Hsplit Hrest. unfold generateActiveForm, activeForm_rejoined.
  rewrite Hsplit. by destruct rest.
Qed.

(** For a content without a space the function appends a space to the
    inflected word. *)
Lemma generateActiveForm_one_word (content : string) :
  split " " content = [content] →
  generateActiveForm content = activeWord content +:+ " "
  ∧ activeForm_rejoined content = activeWord content.
Proof.
  intros Hsplit. unfold generateActiveForm, activeForm_rejoined.
  by rewrite Hsplit.
Qed.

(** C6, at a content of one word: splitting "Run" on spaces gives the
    one word "Run", which is inflected to "Running"; joined with no
    remaining words that is "Running", but [generateActiveForm]
    returns "Running " with a space at the end. *)
Theorem generateActiveForm_run :
  split " " "Run" = ["Run"]
  ∧ activeWord "Run" = "Running"
  ∧ activeForm_rejoined "Run" = "Running"
  ∧ generateActiveForm "Run" = "Running "
  ∧ generateActiveForm "Run" ≠ activeForm_rejoined "Run".
Proof. by repeat split. Qed.

(** *** [calculateStats] *)

Lemma calculateStats_counts (state : TodoState) :
  total (calculateStats state) = length (tasks state)
  ∧ stats_pending (calculateStats state) = count pending state
  ∧ stats_inProgress (calculateStats state) = count in_progress state
  ∧ stats_completed (calculateStats state) = count completed state.
Proof. done. Qed.

Lemma calculateStats_no_tasks (state : TodoState) :
  tasks state = [] →
  completionPercentage (calculateStats state) = ofZ 0.
Proof. unfold calculateStats. by intros ->. Qed.

Example calculateStats_1_of_3 :
  completionPercentage (calculateStats (progress 1 2)) = ofZ 33.
Proof. by vm_compute. Qed.

Lemma exact_below_40 : exact_below 40 = true.
Proof. by vm_compute. Qed.

(** Up to 39 tasks the percentage is the one of the specification. *)
Lemma calculateStats_exact_below_40 (state : TodoState) :
  length (tasks state) < 40 →
  completionPercentage (calculateStats state)
  = ofZ (roundedPercentage (count completed state) (length (tasks state))).
Proof.
  intros Hlen.
  change (completionPercentage (calculateStats state))
    with (percentage (count completed state) (length (tasks state))).
  pose proof exact_below_40 as Htable. unfold exact_below in Htable.
  rewrite forallb_forall in Htable.
  specialize (Htable (length (tasks state))).
  rewrite forallb_forall in Htable.
  apply (bool_decide_eq_true_1 _), Htable; apply in_seq; [lia|].
  split; [lia|]. unfold count. simpl.
  pose proof (filter_length_le
                (λ t, bool_decide (status t = completed)) (tasks state)).
  lia.
Qed.

(** C5, at 23 completed tasks of 40: [100 * 23 / 40] is 57.5, whose
    nearest integer is 58, but the quotient [23 / 40] is rounded to
    binary64 before it is multiplied by 100, the product is below 57.5
    and [calculateStats] returns 57. *)
Theorem calculateStats_23_of_40 :
  let stats := calculateStats (progress 23 17) in
  total stats = 40
  ∧ stats_completed stats = 23
  ∧ (2 * (100 * 23) = (2 * 57 + 1) * 40)%Z
  ∧ roundedPercentage 23 40 = 58%Z
  ∧ completionPercentage stats = ofZ 57
  ∧ completionPercentage stats ≠ ofZ (roundedPercentage 23 40).
Proof. by vm_compute. Qed.

(** *** [listSessions] *)

Section Sessions.
Variable JSON_parse : string → option json.

Lemma sessionInfo_Some (dir : Dir) (file : string) (s : SessionInfo) :
  sessionInfo JSON_parse dir file = Some s →
  session_filename s = file
  ∧ stat dir file = Some (session_lastUpdated s)
  ∧ ∃ content todos,
      readFile dir file = Some content
      ∧ JSON_parse content = Some todos
      ∧ taskCount s = match todos with JArr items => length items | _ => 0 end.
Proof.
  unfold sessionInfo. intros Hs.
  destruct (stat dir file) as [mtime|]; simpl in Hs; [|done].
  destruct (readFile dir file) as [content|]; simpl in Hs; [|done].
  destruct (JSON_parse content) as [todos|] eqn:Hparse; simpl in Hs;
    [|done].
  injection Hs as <-. simpl. eauto 10.
Qed.

Lemma sessionInfo_None (dir : Dir) (file : string) :
  stat dir file = None
  ∨ readFile dir file = None
  ∨ (∃ content, readFile dir file = Some content
                ∧ JSON_parse content = None) →
  sessionInfo JSON_parse dir file = None.
Proof.
  unfold sessionInfo. intros [Hstat|[Hread|(content & Hread & Hparse)]].
  - by rewrite Hstat.
  - rewrite Hread. by destruct (stat dir file).
  - rewrite Hread. destruct (stat dir file); [|done]. simpl.
    by rewrite Hparse.
Qed.

Lemma listSessions_unfold (dir : Dir) (files : list string)
    (sessions : list SessionInfo) :
  readdir dir = Some files →
  mapM (sessionInfo JSON_parse dir) (List.filter isJsonFile files)
  = Some sessions →
  listSessions JSON_parse dir
  = take 50 (sort (after_key session_lastUpdated)
                  (List.filter (λ s, 0 <? taskCount s) sessions)).
Proof.
  intros Hrd Hmap. unfold listSessions, listSessions_try.
  rewrite Hrd. simpl. by rewrite Hmap.
Qed.

Lemma listSessions_cases (dir : Dir) :
  listSessions JSON_parse dir = []
  ∨ ∃ files sessions,
      readdir dir = Some files
      ∧ mapM (sessionInfo JSON_parse dir) (List.filter isJsonFile files)
        = Some sessions.
Proof.
  unfold listSessions, listSessions_try.
  destruct (readdir dir) as [files|]; [|by left]. simpl.
  destruct (mapM _ _) as [sessions|] eqn:Hmap; [|by left].
  right. eauto.
Qed.

Lemma listed_session_with_tasks (dir : Dir) (files : list string)
    (sessions : list SessionInfo) (s : SessionInfo) :
  readdir dir = Some files →
  mapM (sessionInfo JSON_parse dir) (List.filter isJsonFile files)
  = Some sessions →
  s ∈ sessions → 0 < taskCount s →
  session_with_tasks JSON_parse dir s.
Proof.
  intros Hrd Hmap Hs Hcount. apply mapM_Some in Hmap.
  apply list_elem_of_lookup_1 in Hs as [i Hi].
  destruct (Forall2_lookup_r _ _ _ i s Hmap Hi)
    as (file & Hfile & Hinfo).
  apply sessionInfo_Some in Hinfo
    as (Hname & Hstat & content & todos & Hread & Hparse & Htodos).
  apply list_elem_of_lookup_2 in Hfile.
  apply list_elem_of_In, filter_In in Hfile as [Hin Hjson].
  exists files, content.
  destruct todos as [| | | |items|]; try (simpl in Htodos; lia).
  exists items. rewrite Hname. repeat split; try done.
  - by apply list_elem_of_In.
  - intros ->. simpl in Htodos. lia.
Qed.

Lemma listSessions_newest (dir : Dir) (files : list string)
    (sessions : list SessionInfo) (s : SessionInfo) :
  readdir dir = Some files →
  mapM (sessionInfo JSON_parse dir) (List.filter isJsonFile files)
  = Some sessions →
  s ∈ sessions → 0 < taskCount s →
  s ∈ listSessions JSON_parse dir
  ∨ (length (listSessions JSON_parse dir) = 50
     ∧ ∀ s', s' ∈ listSessions JSON_parse dir →
             (session_lastUpdated s ≤ session_lastUpdated s')%Z).
Proof.
  intros Hrd Hmap Hs Hcount.
  rewrite (listSessions_unfold _ _ _ Hrd Hmap).
  set (kept := List.filter (λ s, 0 <? taskCount s) sessions).
  apply take_sorted_newest; [apply sort_sorted|].
  rewrite sort_perm. apply list_elem_of_In, filter_In. split.
  - by apply list_elem_of_In.
  - by apply Nat.ltb_lt.
Qed.

(** C8. Whatever the directory holds, every entry [listSessions]
    returns stands for a JSON file that parsed to an array with at
    least one record (so no session without tasks is listed); the
    entries are in descending order of modification time; there are
    at most 50; and when all files were read, a session with tasks
    that is left out is not newer than any of the 50 listed. *)
Theorem listSessions_newest_with_tasks (dir : Dir) :
  let listing := listSessions JSON_parse dir in
  Forall (session_with_tasks JSON_parse dir) listing
  ∧ StronglySorted (descending session_lastUpdated) listing
  ∧ length listing ≤ 50
  ∧ (∀ files sessions s,
       readdir dir = Some files →
       mapM (sessionInfo JSON_parse dir) (List.filter isJsonFile files)
       = Some sessions →
       s ∈ sessions → 0 < taskCount s →
       s ∈ listing
       ∨ (length listing = 50
          ∧ ∀ s', s' ∈ listing →
                  (session_lastUpdated s ≤ session_lastUpdated s')%Z)).
Proof.
  cbv zeta.
  destruct (listSessions_cases dir)
    as [Hnil|(files & sessions & Hrd & Hmap)].
  { split; [|split; [|split]]; [| | |by apply listSessions_newest];
      rewrite Hnil; [constructor|constructor|simpl; lia]. }
  split; [|split; [|split]]; [| | |by apply listSessions_newest];
    rewrite (listSessions_unfold _ _ _ Hrd Hmap);
    set (kept := List.filter (λ s, 0 <? taskCount s) sessions);
    pose proof (sort_sorted session_lastUpdated kept) as Hsorted;
    pose proof (sort_perm session_lastUpdated kept) as Hperm.
  - apply Forall_forall. intros s Hs.
    apply elem_of_take in Hs as (i & Hs & _).
    apply list_elem_of_lookup_2 in Hs. rewrite Hperm in Hs.
    apply list_elem_of_In, filter_In in Hs as [Hs Hcount].
    apply (listed_session_with_tasks dir files sessions); try done.
    + by apply list_elem_of_In.
    + by apply Nat.ltb_lt.
  - rewrite <- (take_drop 50 (sort _ kept)) in Hsorted.
    by apply StronglySorted_app_1_l in Hsorted.
  - rewrite length_take. lia.
Qed.

(** C10. If the [stat], the read or the parse of one JSON file of the
    directory fails, [listSessions] returns the empty list. *)
Theorem listSessions_one_failure_hides_all (dir : Dir)
    (files : list string) (file : string) :
  readdir dir = Some files →
  file ∈ files →
  isJsonFile file = true →
  stat dir file = None
  ∨ readFile dir file = None
  ∨ (∃ content, readFile dir file = Some content
                ∧ JSON_parse content = None) →
  listSessions JSON_parse dir = [].
Proof.
  intros Hrd Hin Hjson Hfail.
  unfold listSessions, listSessions_try. rewrite Hrd. simpl.
  assert (mapM (sessionInfo JSON_parse dir) (List.filter isJsonFile files)
          = None) as ->; [|done].
  apply mapM_None, Exists_exists. exists file. split.
  - by apply list_elem_of_In, filter_In; split; [apply list_elem_of_In|].
  - by apply sessionInfo_None.
Qed.

End Sessions.

(** The session without tasks is left out of the listing. *)
Example listSessions_good_dir :
  listSessions sample_parse good_dir
  = [mkSessionInfo "aaa-agent-aaa.json" 300 2;
     mkSessionInfo "ccc-agent-ccc.json" 200 1].
Proof. reflexivity. Qed.

Lemma listSessions_newest_with_tasks_witness :
  mkSessionInfo "ccc-agent-ccc.json" 200 1 ∈ listSessions sample_parse good_dir
  ∨ (length (listSessions sample_parse good_dir) = 50
     ∧ ∀ s', s' ∈ listSessions sample_parse good_dir →
             (200 ≤ session_lastUpdated s')%Z).
Proof.
  apply (proj2 (proj2 (proj2
           (listSessions_newest_with_tasks sample_parse good_dir)))
           (["aaa-agent-aaa.json"; "bbb-agent-bbb.json";
             "ccc-agent-ccc.json"; "notes.txt"])
           [mkSessionInfo "aaa-agent-aaa.json" 300 2;
            mkSessionInfo "bbb-agent-bbb.json" 100 0;
            mkSessionInfo "ccc-agent-ccc.json" 200 1]
           (mkSessionInfo "ccc-agent-ccc.json" 200 1)).
  - reflexivity.
  - reflexivity.
  - apply (bool_decide_eq_true_1 _). reflexivity.
  - simpl. lia.
Defined.

Lemma listSessions_one_failure_hides_all_witness :
  listSessions sample_parse torn_dir = [].
Proof.
  apply (listSessions_one_failure_hides_all sample_parse torn_dir
           ["aaa-agent-aaa.json"; "bbb-agent-bbb.json";
            "ccc-agent-ccc.json"; "notes.txt"]
           "ccc-agent-ccc.json").
  - reflexivity.
  - apply (bool_decide_eq_true_1 _). reflexivity.
  - reflexivity.
  - right. right. exists "[{". split; reflexivity.
Defined.

(** *** [loadState] and [loadSession] *)

Section Loading.
Variable JSON_parse : string → option json.

Lemma loadState_try_selected (dir : Dir) (now : Z) (m : FileStat) :
  selected dir = Some m →
  loadState_try JSON_parse dir now = load_selected JSON_parse dir m.
Proof.
  unfold selected, loadState_try, load_selected.
  destruct (readdir dir) as [files|]; simpl; [|done].
  case_bool_decide as Hlen.
  - apply nil_length_inv in Hlen. by rewrite Hlen.
  - destruct (mapM _ _) as [fileStats|]; simpl; [|done]. by intros ->.
Qed.

Lemma loadState_try_no_files (dir : Dir) (now : Z) (st : TodoState) :
  selected dir = None →
  loadState_try JSON_parse dir now = Some st →
  ∃ files, readdir dir = Some files
           ∧ List.filter isJsonFile files = []
           ∧ st = mkTodoState "no-session" [] now.
Proof.
  unfold selected, loadState_try.
  destruct (readdir dir) as [files|]; simpl; [|done].
  case_bool_decide as Hlen.
  - apply nil_length_inv in Hlen. intros _ [= <-]. eauto.
  - destruct (mapM _ _) as [fileStats|]; simpl; [|done]. by intros ->.
Qed.

Lemma load_selected_Some (dir : Dir) (m : FileStat) (st : TodoState) :
  load_selected JSON_parse dir m = Some st → loaded_from JSON_parse dir m st.
Proof.
  unfold load_selected, loaded_from. intros Hst.
  destruct (readFile dir (stat_file m)) as [content|]; simpl in Hst;
    [|done].
  destruct (JSON_parse content) as [claudeTodos|] eqn:Hparse;
    simpl in Hst; [|done].
  destruct claudeTodos as [| | | |items|]; simpl in Hst; try done.
  destruct (mapM (mapTodo (stat_mtime m)) items) as [tasks|] eqn:Hmap;
    simpl in Hst; [|done].
  injection Hst as <-. exists content, items. by repeat split.
Qed.

Lemma load_selected_None (dir : Dir) (m : FileStat) :
  readFile dir (stat_file m) = None
  ∨ (∃ content, readFile dir (stat_file m) = Some content
                ∧ JSON_parse content = None) →
  load_selected JSON_parse dir m = None.
Proof.
  unfold load_selected. intros [Hread|(content & Hread & Hparse)].
  - by rewrite Hread.
  - rewrite Hread. simpl. by rewrite Hparse.
Qed.

Lemma loadSession_load_selected (dir : Dir) (name : string) (st : TodoState) :
  loadSession JSON_parse dir name = Some st →
  ∃ mtime, stat dir name = Some mtime
           ∧ load_selected JSON_parse dir (mkFileStat name mtime) = Some st.
Proof.
  unfold loadSession, load_selected. simpl. intros Hst.
  destruct (readFile dir name) as [content|]; simpl in *; [|done].
  destruct (JSON_parse content) as [claudeTodos|]; simpl in *; [|done].
  destruct (stat dir name) as [mtime|]; simpl in *; [|done]. eauto.
Qed.

Lemma mapTodo_status (mtime : Z) (todo : json) (task : TodoTask) :
  mapTodo mtime todo = Some task → status_mapped todo task.
Proof.
  unfold mapTodo, status_mapped. intros Htask.
  destruct (prop todo "content") as [[[]|]|]; try done.
  destruct (prop todo "status") as [value|]; [|done].
  injection Htask as <-. by exists value.
Qed.

Lemma loaded_from_status (dir : Dir) (m : FileStat) (st : TodoState) :
  loaded_from JSON_parse dir m st →
  ∃ content items,
    readFile dir (stat_file m) = Some content
    ∧ JSON_parse content = Some (JArr items)
    ∧ Forall2 status_mapped items (tasks st).
Proof.
  intros (content & items & Hread & Hparse & Hmap & _).
  exists content, items. repeat split; try done.
  apply mapM_Some in Hmap.
  eapply Forall2_impl; [exact Hmap|]. intros todo task.
  apply mapTodo_status.
Qed.

(** The selected file is a JSON file of the directory and none is
    newer. *)
Lemma selected_newest (dir : Dir) (m : FileStat) :
  selected dir = Some m →
  ∃ files,
    readdir dir = Some files
    ∧ stat_file m ∈ List.filter isJsonFile files
    ∧ stat dir (stat_file m) = Some (stat_mtime m)
    ∧ ∀ file mtime,
        file ∈ List.filter isJsonFile files →
        stat dir file = Some mtime → (mtime ≤ stat_mtime m)%Z.
Proof.
  unfold selected. destruct (readdir dir) as [files|]; simpl; [|done].
  destruct (mapM _ _) as [fileStats|] eqn:Hmap; simpl; [|done].
  intros Hhead. exists files. split; [done|].
  apply mapM_Some in Hmap.
  pose proof (sort_sorted stat_mtime fileStats) as Hsorted.
  pose proof (sort_perm stat_mtime fileStats) as Hperm.
  change (sort older fileStats) with (sort (after_key stat_mtime) fileStats)
    in Hhead.
  destruct (sort (after_key stat_mtime) fileStats) as [|m' sorted]
    eqn:Hsort; [done|].
  injection Hhead as ->.
  assert (∀ fs, fs ∈ fileStats →
            stat_file fs ∈ List.filter isJsonFile files
            ∧ stat dir (stat_file fs) = Some (stat_mtime fs)) as Hstats.
  { intros fs [i Hi]%list_elem_of_lookup_1.
    destruct (Forall2_lookup_r _ _ _ i fs Hmap Hi) as (file & Hfile & Hfs).
    destruct (stat dir file) as [mtime|] eqn:Hstat; [|done].
    injection Hfs as <-. simpl. split; [|done].
    by apply list_elem_of_lookup_2 in Hfile. }
  assert (m ∈ fileStats) as Hm by (rewrite <- Hperm; left).
  destruct (Hstats m Hm) as [Hin Hstat]. repeat split; try done.
  intros file mtime [i Hi]%list_elem_of_lookup_1 Hfile.
  destruct (Forall2_lookup_l _ _ _ i file Hmap Hi) as (fs & Hfs & Hmk).
  rewrite Hfile in Hmk. injection Hmk as <-.
  apply list_elem_of_lookup_2 in Hfs. rewrite <- Hperm in Hfs.
  apply StronglySorted_cons in Hsorted as [Hall _].
  apply elem_of_cons in Hfs as [<-|Hfs]; [done|].
  rewrite Forall_forall in Hall. exact (Hall _ Hfs).
Qed.

(** C3. When [loadState] has selected a file and reading it throws,
    or its text is not JSON, [this.currentState] stays what it was;
    so it does whenever the [try] block throws; and a state that
    [loadState] puts in its place is either the no-session state of
    a directory without JSON files or the mapping of every record of
    the selected file. *)
Theorem loadState_error_keeps_state (dir : Dir) (now : Z)
    (currentState : option TodoState) :
  (∀ m, selected dir = Some m →
        readFile dir (stat_file m) = None
        ∨ (∃ content, readFile dir (stat_file m) = Some content
                      ∧ JSON_parse content = None) →
        loadState JSON_parse dir now currentState = currentState)
  ∧ (loadState_try JSON_parse dir now = None →
     loadState JSON_parse dir now currentState = currentState)
  ∧ (∀ st, loadState JSON_parse dir now currentState = Some st →
           currentState ≠ Some st →
           (∃ files, readdir dir = Some files
                     ∧ List.filter isJsonFile files = []
                     ∧ st = mkTodoState "no-session" [] now)
           ∨ (∃ m, selected dir = Some m ∧ loaded_from JSON_parse dir m st)).
Proof.
  split; [|split].
  - intros m Hsel Hfail. unfold loadState.
    rewrite (loadState_try_selected dir now m Hsel).
    by rewrite (load_selected_None dir m Hfail).
  - intros Hnone. unfold loadState. by rewrite Hnone.
  - intros st Hst Hchanged. unfold loadState in Hst.
    destruct (loadState_try JSON_parse dir now) as [st'|] eqn:Htry;
      [|congruence].
    injection Hst as ->.
    destruct (selected dir) as [m|] eqn:Hsel.
    + right. exists m. split; [done|].
      rewrite (loadState_try_selected dir now m Hsel) in Htry.
      by apply load_selected_Some.
    + left. by apply loadState_try_no_files.
Qed.

(** A record with a string content is always mapped, whatever its
    status is. *)
Lemma mapTodo_string_content (mtime : Z) (todo : json) (content : string) :
  prop todo "content" = Some (Some (JStr content)) →
  ∃ value,
    prop todo "status" = Some value
    ∧ mapTodo mtime todo
      = Some (mkTodoTask content (generateActiveForm content)
                         (mapStatus value) (Some mtime)).
Proof.
  intros Hcontent. unfold mapTodo. rewrite Hcontent.
  destruct todo as [| | | | |fields]; try done; by eexists.
Qed.

Lemma mapTodos_string_contents (mtime : Z) (items : list json) :
  Forall (λ todo, ∃ content,
            prop todo "content" = Some (Some (JStr content))) items →
  ∃ tasks, mapM (mapTodo mtime) items = Some tasks
           ∧ Forall2 status_mapped items tasks.
Proof.
  induction 1 as [|todo items [content Hcontent] _ (tasks & Hmap & Hall)].
  - by exists [].
  - destruct (mapTodo_string_content mtime todo content Hcontent)
      as (value & Hstatus & Htask).
    eexists (_ :: tasks). simpl. rewrite Htask. simpl. rewrite Hmap.
    split; [done|]. constructor; [|done]. by exists value.
Qed.

Lemma load_selected_string_contents (dir : Dir) (m : FileStat)
    (content : string) (items : list json) :
  readFile dir (stat_file m) = Some content →
  JSON_parse content = Some (JArr items) →
  Forall (λ todo, ∃ content,
            prop todo "content" = Some (Some (JStr content))) items →
  ∃ st, load_selected JSON_parse dir m = Some st
        ∧ Forall2 status_mapped items (tasks st).
Proof.
  intros Hread Hparse Hitems.
  destruct (mapTodos_string_contents (stat_mtime m) items Hitems)
    as (tasks & Hmap & Hall).
  unfold load_selected. rewrite Hread. simpl. rewrite Hparse. simpl.
  rewrite Hmap. simpl. by eexists.
Qed.

(** C7. The status ["pending"] is mapped to pending, ["in_progress"]
    to in_progress and every other value, such as ["bogus"] or a
    missing status, to completed.  No status is rejected: a record
    whose content is a string is mapped to a task with the status so
    mapped, and a file that is read and parsed to an array of such
    records is loaded, by [loadSession] and by a reload that selects
    it, to a state whose tasks carry, position by position, the
    mapped status of the records.  Conversely every state that
    [loadState] or [loadSession] builds from a file carries these
    statuses. *)
Theorem status_mapping :
  mapStatus (Some (JStr "pending")) = pending
  ∧ mapStatus (Some (JStr "in_progress")) = in_progress
  ∧ mapStatus (Some (JStr "bogus")) = completed
  ∧ (∀ value, value ≠ Some (JStr "pending") →
              value ≠ Some (JStr "in_progress") →
              mapStatus value = completed)
  ∧ (∀ mtime todo content,
       prop todo "content" = Some (Some (JStr content)) →
       ∃ value,
         prop todo "status" = Some value
         ∧ mapTodo mtime todo
           = Some (mkTodoTask content (generateActiveForm content)
                              (mapStatus value) (Some mtime)))
  ∧ (∀ dir name content items mtime,
       readFile dir name = Some content →
       JSON_parse content = Some (JArr items) →
       stat dir name = Some mtime →
       Forall (λ todo, ∃ text,
                 prop todo "content" = Some (Some (JStr text))) items →
       ∃ st, loadSession JSON_parse dir name = Some st
             ∧ Forall2 status_mapped items (tasks st))
  ∧ (∀ dir now currentState m content items,
       selected dir = Some m →
       readFile dir (stat_file m) = Some content →
       JSON_parse content = Some (JArr items) →
       Forall (λ todo, ∃ text,
                 prop todo "content" = Some (Some (JStr text))) items →
       ∃ st, loadState JSON_parse dir now currentState = Some st
             ∧ Forall2 status_mapped items (tasks st))
  ∧ (∀ dir now st,
       loadState_try JSON_parse dir now = Some st →
       (∃ files, readdir dir = Some files
                 ∧ List.filter isJsonFile files = []
                 ∧ st = mkTodoState "no-session" [] now)
       ∨ ∃ m content items,
           selected dir = Some m
           ∧ readFile dir (stat_file m) = Some content
           ∧ JSON_parse content = Some (JArr items)
           ∧ Forall2 status_mapped items (tasks st))
  ∧ (∀ dir name st,
       loadSession JSON_parse dir name = Some st →
       ∃ content items,
         readFile dir name = Some content
         ∧ JSON_parse content = Some (JArr items)
         ∧ Forall2 status_mapped items (tasks st)).
Proof.
  split; [done|]. split; [done|]. split; [done|]. split; [|split].
  - intros [[| | |s| |]|] Hp Hi; try done. simpl.
    repeat case_bool_decide; by subst.
  - apply mapTodo_string_content.
  - split; [|split; [|split]].
    + intros dir name content items mtime Hread Hparse Hstat Hitems.
      destruct (load_selected_string_contents dir (mkFileStat name mtime)
                  content items Hread Hparse Hitems) as (st & Hst & Hall).
      exists st. split; [|done]. unfold load_selected in Hst.
      unfold loadSession. simpl in Hst. rewrite Hread in Hst |- *.
      simpl in Hst |- *. rewrite Hparse in Hst |- *. simpl in Hst |- *.
      by rewrite Hstat.
    + intros dir now currentState m content items Hsel Hread Hparse Hitems.
      destruct (load_selected_string_contents dir m content items
                  Hread Hparse Hitems) as (st & Hst & Hall).
      exists st. split; [|done]. unfold loadState.
      by rewrite (loadState_try_selected dir now m Hsel), Hst.
    + intros dir now st Htry.
      destruct (selected dir) as [m|] eqn:Hsel.
      * right. rewrite (loadState_try_selected dir now m Hsel) in Htry.
        apply load_selected_Some, loaded_from_status in Htry
          as (content & items & Hread & Hparse & Hall).
        by exists m, content, items.
      * left. by apply loadState_try_no_files.
    + intros dir name st Hst.
      apply loadSession_load_selected in Hst as (mtime & _ & Hst).
      by apply load_selected_Some, loaded_from_status in Hst.
Qed.

End Loading.

Example loadState_good_dir :
  loadState sample_parse good_dir 7 None
  = Some (mkTodoState "aaa"
            [mkTodoTask "Write tests" "Writing tests" pending (Some 300%Z);
             mkTodoTask "Run build" "Running build" completed (Some 300%Z)]
            300).
Proof. reflexivity. Qed.

Lemma loadState_error_keeps_state_witness :
  loadState sample_parse torn_dir 7 (loadState sample_parse good_dir 7 None)
  = loadState sample_parse good_dir 7 None.
Proof.
  apply (proj1 (loadState_error_keeps_state sample_parse torn_dir 7
                  (loadState sample_parse good_dir 7 None))
               (mkFileStat "ccc-agent-ccc.json" 500)).
  - reflexivity.
  - right. exists "[{". split; reflexivity.
Defined.

(** The record with the status "bogus" is loaded as completed. *)
Example loadSession_good_dir :
  loadSession sample_parse good_dir "aaa-agent-aaa.json"
  = Some (mkTodoState "aaa"
            [mkTodoTask "Write tests" "Writing tests" pending (Some 300%Z);
             mkTodoTask "Run build" "Running build" completed (Some 300%Z)]
            300).
Proof. reflexivity. Qed.

Lemma status_mapping_witness :
  ∃ st, loadSession sample_parse good_dir "aaa-agent-aaa.json" = Some st
        ∧ Forall2 status_mapped two_records (tasks st).
Proof.
  apply (proj1 (proj2 (proj2 (proj2 (proj2 (proj2
           (status_mapping sample_parse))))))
           good_dir "aaa-agent-aaa.json" "TWO TODOS" two_records 300%Z).
  - reflexivity.
  - reflexivity.
  - reflexivity.
  - repeat constructor; eexists; reflexivity.
Defined.

End TodoProps.

(** ** More on the outline extractor *)

Module MarkdownExtra.
Import JsString JsStringFacts Types Markdown MarkdownMore SlugProps
       MarkdownProps.

Lemma span_spec (p : ascii → bool) (s : string) :
  s = (span p s).1 +:+ (span p s).2
  ∧ forallb p (span p s).1 = true
  ∧ match (span p s).2 with String c _ => p c = false | "" => True end.
Proof.
  induction s as [|c s (IH1 & IH2 & IH3)]; simpl; [done|].
  destruct (p c) eqn:Hc.
  - destruct (span p s) as [a b]. simpl in *. rewrite Hc.
    repeat split; try done. rewrite append_cons. by f_equal.
  - by repeat split.
Qed.

Lemma span_stop (p : ascii → bool) (a b : string) :
  forallb p a = true →
  match b with String c _ => p c = false | "" => True end →
  span p (a +:+ b) = (a, b).
Proof.
  intros Ha Hb. induction a as [|c a IH]; simpl.
  - rewrite append_nil_l. destruct b as [|c b]; [done|]. simpl. by rewrite Hb.
  - simpl in Ha. apply andb_prop in Ha as [Hc Ha].
    rewrite Hc. by rewrite (IH Ha).
Qed.

Lemma is_code_eq (n : nat) (c : ascii) :
  is_code n c = true → c = ascii_of_nat n.
Proof.
  unfold is_code, code. intros Hc%Nat.eqb_eq. subst n.
  by rewrite ascii_nat_embedding.
Qed.

Lemma all_hashes (s : string) :
  forallb (is_code 35) s = true → s = hashes (String.length s).
Proof.
  induction s as [|c s IH]; simpl; [done|].
  intros [Hc Hs]%andb_prop. rewrite <- (IH Hs).
  by rewrite (is_code_eq _ _ Hc).
Qed.

Lemma hashes_length (n : nat) : String.length (hashes n) = n.
Proof. induction n as [|n IH]; simpl; by rewrite ?IH. Qed.

Lemma hashes_all (n : nat) : forallb (is_code 35) (hashes n) = true.
Proof. induction n as [|n IH]; simpl; [done|]. exact IH. Qed.

Lemma drop_last_last (s : string) (c : ascii) :
  last s = Some c → s = drop_last s +:+ String c "".
Proof.
  induction s as [|a s IH]; [done|]. destruct s as [|b s].
  - simpl. by intros [= ->].
  - intros Hlast. change (last (String a (String b s))) with (last (String b s))
      in Hlast.
    change (drop_last (String a (String b s)))
      with (String a (drop_last (String b s))).
    rewrite append_cons. f_equal. by apply IH.
Qed.

Lemma forallb_drop_last (p : ascii → bool) (s : string) :
  forallb p s = true → forallb p (drop_last s) = true.
Proof.
  induction s as [|a s IH]; [done|]. destruct s as [|b s]; [done|].
  intros [Ha Hs]%andb_prop.
  change (drop_last (String a (String b s)))
    with (String a (drop_last (String b s))).
  simpl forallb at 1. rewrite Ha. by apply IH.
Qed.

Lemma drop_last_nonempty (s : string) :
  2 ≤ String.length s → drop_last s ≠ "".
Proof. destruct s as [|a [|b s]]; simpl; [lia|lia|done]. Qed.

Lemma existsb_false_forallb (p : ascii → bool) (s : string) :
  existsb p s = false ↔ forallb (λ c, negb (p c)) s = true.
Proof.
  induction s as [|c s IH]; simpl; [done|].
  rewrite orb_false_iff, andb_true_iff, negb_true_iff. tauto.
Qed.

(** X1. A line the loop takes for a heading is made of one to six
    number signs, some white space and the title; the title is not
    empty and holds no line terminator. *)
Theorem headingMatch_shape (line : string) (n : nat) (ttl : string) :
  headingMatch line = Some (n, ttl) →
  1 ≤ n ≤ 6
  ∧ ttl ≠ ""
  ∧ existsb is_line_terminator ttl = false
  ∧ ∃ ws, ws ≠ "" ∧ forallb is_space ws = true
          ∧ line = hashes n +:+ ws +:+ ttl.
Proof.
  unfold headingMatch.
  destruct (span_spec (is_code 35) line) as (Hline & Hhashes & _).
  destruct (span (is_code 35) line) as [hs rest]. cbn [fst snd] in *.
  destruct ((1 <=? String.length hs) && (String.length hs <=? 6)) eqn:Hn;
    [|done].
  apply andb_prop in Hn as [Hn1%Nat.leb_le Hn6%Nat.leb_le].
  destruct (span_spec is_space rest) as (Hrest & Hws & _).
  destruct (span is_space rest) as [ws text]. cbn [fst snd] in *.
  destruct ws as [|w ws]; [by destruct text|].
  destruct text as [|t text].
  - destruct (last (String w ws)) as [c|] eqn:Hlast; [|done].
    destruct ((2 <=? String.length (String w ws))
              && negb (is_line_terminator c)) eqn:Hok; [|done].
    apply andb_prop in Hok as [Hlen%Nat.leb_le Hterm].
    intros [= <- <-]. repeat split; try done.
    + simpl. apply negb_true_iff in Hterm. by rewrite Hterm.
    + exists (drop_last (String w ws)). repeat split.
      * by apply drop_last_nonempty.
      * by apply forallb_drop_last.
      * rewrite Hline, Hrest, append_nil_r.
        rewrite (all_hashes hs Hhashes) at 1. f_equal.
        by apply drop_last_last.
  - destruct (existsb is_line_terminator (String t text)) eqn:Hterm; [done|].
    intros [= <- <-]. repeat split; try done.
    exists (String w ws). repeat split; try done.
    rewrite Hline, Hrest. by rewrite (all_hashes hs Hhashes) at 1.
Qed.

Lemma headingMatch_shape_witness :
  1 ≤ 2 ≤ 6
  ∧ "Steps" ≠ ""
  ∧ existsb is_line_terminator "Steps" = false
  ∧ ∃ ws, ws ≠ "" ∧ forallb is_space ws = true
          ∧ "##  Steps" = hashes 2 +:+ ws +:+ "Steps".
Proof. apply (headingMatch_shape "##  Steps" 2 "Steps"). reflexivity. Defined.

(** X2. One to six number signs, white space and a text that starts
    with no white space and holds no line terminator are a heading of
    that level with that text as its title. *)
Theorem headingMatch_complete (n : nat) (ws ttl : string) :
  1 ≤ n ≤ 6 →
  ws ≠ "" → forallb is_space ws = true →
  ttl ≠ "" → starts_at_text ttl = true →
  existsb is_line_terminator ttl = false →
  headingMatch (hashes n +:+ ws +:+ ttl) = Some (n, ttl).
Proof.
  intros [Hn1 Hn6] Hws Hspace Httl Hstart Hterm. unfold headingMatch.
  rewrite (span_stop (is_code 35) (hashes n) (ws +:+ ttl)).
  - rewrite hashes_length.
    replace ((1 <=? n) && (n <=? 6)) with true
      by (symmetry; apply andb_true_iff; split; by apply Nat.leb_le).
    rewrite (span_stop is_space ws ttl); [| done |].
    + destruct ws as [|w ws]; [done|]. destruct ttl as [|t ttl]; [done|].
      by rewrite Hterm.
    + destruct ttl as [|t ttl]; [done|]. simpl in Hstart.
      by apply negb_true_iff in Hstart.
  - apply hashes_all.
  - destruct ws as [|w ws]; [done|]. rewrite append_cons.
    simpl in Hspace. apply andb_prop in Hspace as [Hw _].
    unfold is_code. apply Nat.eqb_neq. intros Hcode.
    unfold is_space, in_range, is_code in Hw. rewrite Hcode in Hw.
    by vm_compute in Hw.
Qed.

Lemma headingMatch_complete_witness :
  headingMatch (hashes 3 +:+ " " +:+ "Risks and plans")
  = Some (3, "Risks and plans").
Proof.
  apply (headingMatch_complete 3 " " "Risks and plans");
    [lia | discriminate | reflexivity | discriminate | reflexivity
    | reflexivity].
Defined.

(** *** Ids *)

Lemma hyphen_not_alnum (c : ascii) :
  is_code 45 c = true → is_lower_alnum c = false.
Proof. intros Hc. by rewrite (is_code_eq _ _ Hc). Qed.

Lemma replace_go_id (s : string) :
  (∀ b, forallb is_id_char (replace_go b s) = true
        ∧ no_double_hyphen (replace_go b s) = true)
  ∧ match replace_go true s with
    | String c _ => is_code 45 c = false
    | "" => True
    end.
Proof.
  induction s as [|c s (IH & Hstart)]; [by split; [intros []|]|].
  assert (is_lower_alnum c = true → is_code 45 c = false) as Hc.
  { intros Hc. destruct (is_code 45 c) eqn:Hh; [|done].
    by rewrite (hyphen_not_alnum _ Hh) in Hc. }
  split.
  - intros b. simpl. destruct (is_lower_alnum c) eqn:Halnum.
    + destruct (IH false) as [Hchars Hdouble]. simpl.
      unfold is_id_char at 1. rewrite Halnum, Hchars, Hdouble. simpl.
      rewrite (Hc eq_refl). by destruct (replace_go false s).
    + destruct b; [exact (IH true)|].
      destruct (IH true) as [Hchars Hdouble]. simpl.
      rewrite Hchars, Hdouble.
      destruct (replace_go true s) as [|d r]; [done|]. by rewrite Hstart.
  - simpl. destruct (is_lower_alnum c) eqn:Halnum; [by apply Hc|done].
Qed.

(** X3. An id holds only the characters [a-z], [0-9] and the hyphen,
    and never two hyphens in a row. *)
Theorem slug_characters (ttl : string) :
  forallb is_id_char (slug ttl) = true
  ∧ no_double_hyphen (slug ttl) = true.
Proof. apply (proj1 (replace_go_id (toLowerCase ttl))). Qed.

Lemma lower_char_id (c : ascii) : is_id_char c = true → lower_char c = c.
Proof.
  destruct c as [[] [] [] [] [] [] [] []]; vm_compute; congruence.
Qed.

Lemma toLowerCase_id (s : string) :
  forallb is_id_char s = true → toLowerCase s = s.
Proof.
  induction s as [|c s IH]; [done|]. simpl.
  intros [Hc Hs]%andb_prop. unfold toLowerCase in *. simpl.
  by rewrite (lower_char_id c Hc), (IH Hs).
Qed.

Lemma replace_go_fixed (s : string) :
  forallb is_id_char s = true → no_double_hyphen s = true →
  replace_go false s = s.
Proof.
  induction s as [|c s IH]; [done|]. simpl.
  intros [Hc Hs]%andb_prop [Hpair Hdouble]%andb_prop.
  specialize (IH Hs Hdouble).
  destruct (is_lower_alnum c) eqn:Halnum; [by rewrite IH|].
  f_equal; [|rewrite replace_go_flag; [done|]].
  - unfold is_id_char in Hc. rewrite Halnum in Hc. simpl in Hc.
    by rewrite (is_code_eq _ _ Hc).
  - destruct s as [|d s]; [done|]. simpl in Hs.
    apply andb_prop in Hs as [Hd _]. unfold is_id_char in Hc, Hd.
    rewrite Halnum in Hc. simpl in Hc. rewrite Hc in Hpair. simpl in Hpair.
    apply negb_true_iff in Hpair. rewrite Hpair in Hd.
    by rewrite orb_false_r in Hd.
Qed.

(** X4. The id of an id is the id itself. *)
Theorem slug_idempotent (ttl : string) : slug (slug ttl) = slug ttl.
Proof.
  destruct (proj1 (replace_go_id (toLowerCase ttl)) false)
    as [Hchars Hdouble].
  change (replace_go false (toLowerCase ttl)) with (slug ttl) in *.
  unfold slug at 1. rewrite (toLowerCase_id _ Hchars).
  by apply replace_go_fixed.
Qed.

(** *** Sections and steps *)

Lemma group_headings (lines : list string) :
  Forall (λ g, headingMatch (heading_line g)
               = Some (heading_level g, heading_title g))
         (group lines).2.
Proof.
  induction lines as [|line lines IH]; simpl; [constructor|].
  destruct (group lines) as [pre gs].
  destruct (headingMatch line) as [[lvl ttl]|] eqn:Hline; simpl in *;
    [by constructor|done].
Qed.

(** X5. The sections are the heading lines of the input, one for one
    and in order: each carries the level and title matched on its line
    and the id made from that title. *)
Theorem sections_of_headings (markdown : string) :
  Forall2 (λ line sec, headingMatch line = Some (level sec, title sec)
                       ∧ id sec = slug (title sec))
          (headingLines markdown) (parsePlan_sections markdown).
Proof.
  unfold headingLines. rewrite headingLines_group, parsePlan_sections_group.
  apply Forall2_fmap, Forall_Forall2_diag.
  eapply Forall_impl; [apply group_headings|]. by intros g Hg.
Qed.

Lemma group_bodies (lines : list string) :
  Forall (λ l, no_newline l = true) lines →
  Forall (λ l, no_newline l = true ∧ isHeading l = false) (group lines).1
  ∧ Forall (λ g, Forall (λ l, no_newline l = true ∧ isHeading l = false)
                        (body g))
           (group lines).2.
Proof.
  induction lines as [|line lines IH]; simpl; [by split; constructor|].
  intros [Hline Hlines]%Forall_cons. destruct (IH Hlines) as [Hpre Hgs].
  unfold isHeading. destruct (group lines) as [pre gs].
  destruct (headingMatch line) as [[lvl ttl]|] eqn:Hmatch; simpl in *.
  - split; [constructor|by constructor].
  - split; [|done]. constructor; [|done]. unfold isHeading.
    by rewrite Hmatch.
Qed.

(** X6. No line of a section's content is a heading line. *)
Theorem content_has_no_heading (markdown : string) (sec : PlanSection)
    (line : string) :
  sec ∈ parsePlan_sections markdown →
  line ∈ split newline (content sec) →
  isHeading line = false.
Proof.
  rewrite parsePlan_sections_group. intros (g & -> & Hg)%list_elem_of_fmap.
  destruct (group_bodies (split newline markdown) (split_pieces _ _))
    as [_ Hbodies].
  rewrite Forall_forall in Hbodies. specialize (Hbodies g Hg).
  simpl. destruct (body g) as [|l ls] eqn:Hbody.
  - simpl. by intros ->%list_elem_of_singleton.
  - rewrite split_join; [| done |].
    + rewrite Forall_forall in Hbodies. intros Hline.
      by destruct (Hbodies line Hline).
    + eapply Forall_impl; [exact Hbodies|]. by intros l' [Hl' _].
Qed.

Lemma content_has_no_heading_witness :
  isHeading "body" = false.
Proof.
  apply (content_has_no_heading
           ("# Title" +:+ String newline "" +:+ "body")
           (mkPlanSection 1 "Title" "body" "title") "body").
  - apply (bool_decide_eq_true_1 _). reflexivity.
  - apply (bool_decide_eq_true_1 _). reflexivity.
Defined.

Lemma scan_preamble (lines : list string) :
  scan lines = scan (dropPreamble lines).
Proof.
  unfold scan. induction lines as [|line lines IH]; [done|]. simpl.
  unfold isHeading, scanLine at 2.
  destruct (headingMatch line) as [[lvl ttl]|] eqn:Hline; [|exact IH].
  simpl. unfold scanLine at 3. by rewrite Hline.
Qed.

Lemma dropPreamble_pieces (lines : list string) :
  Forall (λ l, no_newline l = true) lines →
  Forall (λ l, no_newline l = true) (dropPreamble lines).
Proof.
  induction lines as [|line lines IH]; simpl; [done|]. intros Hall.
  destruct (isHeading line); [done|]. apply IH.
  by apply Forall_cons in Hall as [_ ?].
Qed.

Lemma dropPreamble_idem (lines : list string) :
  dropPreamble (dropPreamble lines) = dropPreamble lines.
Proof.
  induction lines as [|line lines IH]; simpl; [done|].
  destruct (isHeading line) eqn:Hline; [|done]. simpl. by rewrite Hline.
Qed.

(** X7. The lines before the first heading play no part: the input cut
    down to its first heading line and what follows has the same
    sections and the same steps. *)
Theorem preamble_is_ignored (markdown : string) :
  parsePlan_sections (afterPreamble markdown) = parsePlan_sections markdown
  ∧ parsePlan_steps (afterPreamble markdown) = parsePlan_steps markdown.
Proof.
  unfold parsePlan_sections, parsePlan_steps, afterPreamble.
  rewrite (scan_preamble (split newline markdown)).
  destruct (dropPreamble (split newline markdown)) as [|l ls] eqn:Hdrop;
    [done|].
  rewrite split_join; [done | done |].
  rewrite <- Hdrop. apply dropPreamble_pieces, split_pieces.
Qed.

Lemma trim_end_idem (s : string) : trim_end (trim_end s) = trim_end s.
Proof.
  induction s as [|c s IH]; [done|]. simpl.
  destruct (trim_end s) as [|d t] eqn:Hs.
  - destruct (is_space c) eqn:Hc; [done|]. simpl. by rewrite Hc.
  - simpl in IH |- *. by rewrite IH.
Qed.

Lemma trim_end_start (s : string) :
  starts_at_text s = true → starts_at_text (trim_end s) = true.
Proof.
  destruct s as [|c s]; [done|]. simpl. intros Hc.
  destruct (trim_end s); [|done].
  apply negb_true_iff in Hc. rewrite Hc. simpl. by rewrite Hc.
Qed.

Lemma span_start (s : string) :
  starts_at_text s = true → span is_space s = ("", s).
Proof.
  destruct s as [|c s]; [done|]. simpl. by intros ->%negb_true_iff.
Qed.

Lemma trim_idem (s : string) : trim (trim s) = trim s.
Proof.
  unfold trim. destruct (span_spec is_space s) as (_ & _ & Hrest).
  assert (starts_at_text (span is_space s).2 = true) as Hstart.
  { destruct (span is_space s).2; [done|]. simpl. by rewrite Hrest. }
  rewrite (span_start _ (trim_end_start _ Hstart)). simpl.
  apply trim_end_idem.
Qed.

Lemma steps_foldl (P : string → Prop) (lines : list string) (st : ScanState) :
  (∀ line, trim (stripMarker line) ≠ "" → P (trim (stripMarker line))) →
  Forall P (steps st) → Forall P (steps (foldl scanLine st lines)).
Proof.
  intros HP. revert st. induction lines as [|line lines IH]; [done|].
  intros st Hst. simpl. apply IH. unfold scanLine.
  destruct (headingMatch line) as [[lvl ttl]|]; [done|].
  destruct (currentSection st); [|done]. simpl.
  destruct (isStepLine line); [|done]. case_bool_decide; [done|].
  apply Forall_app. split; [done|]. repeat constructor. by apply HP.
Qed.

(** X8. Every step is a text that is not empty and has no white space
    at its start or end. *)
Theorem steps_are_trimmed (markdown : string) :
  Forall (λ step, step ≠ "" ∧ trim step = step) (parsePlan_steps markdown).
Proof.
  unfold parsePlan_steps, scan. apply steps_foldl; [|constructor].
  intros line Hstep. split; [done|]. apply trim_idem.
Qed.

Lemma split_append (sep : ascii) (a b : string) :
  split sep (a +:+ String sep b) = split sep a ++ split sep b.
Proof.
  induction a as [|c a IH].
  - rewrite append_nil_l. simpl. by rewrite bool_decide_eq_true_2.
  - rewrite append_cons. simpl. rewrite IH. case_bool_decide; [done|].
    pose proof (split_nonempty sep a). by destruct (split sep a).
Qed.

Lemma group_app (la lb : list string) :
  match lb with line :: _ => isHeading line = true | [] => False end →
  group (la ++ lb) = ((group la).1, (group la).2 ++ (group lb).2).
Proof.
  intros Hlb. induction la as [|line la IH].
  - destruct lb as [|h lb]; [done|]. simpl in *. unfold isHeading in Hlb.
    destruct (group lb) as [pre gs].
    by destruct (headingMatch h) as [[lvl ttl]|].
  - simpl. rewrite IH. destruct (group la) as [pre gs].
    by destruct (headingMatch line) as [[lvl ttl]|].
Qed.

(** From states inside a section the same lines add the same steps. *)
Lemma steps_added (lines : list string) (st st' : ScanState) :
  is_Some (currentSection st) → is_Some (currentSection st') →
  ∃ added, steps (foldl scanLine st lines) = steps st ++ added
           ∧ steps (foldl scanLine st' lines) = steps st' ++ added.
Proof.
  revert st st'. induction lines as [|line lines IH]; intros st st' Hst Hst'.
  - exists []. by rewrite !app_nil_r.
  - simpl. destruct Hst as [cur Hcur], Hst' as [cur' Hcur'].
    destruct (headingMatch line) as [[lvl ttl]|] eqn:Hline.
    + destruct (IH (scanLine st line) (scanLine st' line))
        as (added & H1 & H2);
        [unfold scanLine; by rewrite Hline..|].
      exists added. rewrite H1, H2. unfold scanLine. by rewrite Hline.
    + destruct (IH (scanLine st line) (scanLine st' line))
        as (added & H1 & H2);
        [unfold scanLine; by rewrite Hline, ?Hcur, ?Hcur'..|].
      rewrite H1, H2. unfold scanLine. rewrite Hline, Hcur, Hcur'. simpl.
      destruct (isStepLine line); [|by exists added].
      case_bool_decide; [by exists added|].
      exists (trim (stripMarker line) :: added).
      by rewrite <- !app_assoc.
Qed.

(** X9. Putting a text whose first line is a heading on a new line
    after another text gives the sections of the first followed by the
    sections of the second, and likewise the steps. *)
Theorem parsePlan_append (first second : string) :
  starts_with_heading second = true →
  parsePlan_sections (first +:+ String newline second)
  = parsePlan_sections first ++ parsePlan_sections second
  ∧ parsePlan_steps (first +:+ String newline second)
    = parsePlan_steps first ++ parsePlan_steps second.
Proof.
  unfold starts_with_heading. intros Hsecond. split.
  - rewrite !parsePlan_sections_group, split_append, group_app.
    + cbn [snd]. by rewrite fmap_app.
    + by destruct (split newline second).
  - unfold parsePlan_steps, scan. rewrite split_append, foldl_app.
    destruct (split newline second) as [|h rest]; [done|]. simpl.
    unfold isHeading in Hsecond.
    destruct (headingMatch h) as [[lvl ttl]|] eqn:Hh; [|done].
    destruct (steps_added rest
                (scanLine (foldl scanLine emptyScan (split newline first)) h)
                (scanLine emptyScan h))
      as (added & H1 & H2); [unfold scanLine; by rewrite Hh..|].
    rewrite H1, H2. unfold scanLine. by rewrite Hh.
Qed.

Lemma parsePlan_append_witness :
  parsePlan_sections ("# A" +:+ String newline "## B")
  = parsePlan_sections "# A" ++ parsePlan_sections "## B"
  ∧ parsePlan_steps ("# A" +:+ String newline "## B")
    = parsePlan_steps "# A" ++ parsePlan_steps "## B".
Proof. apply (parsePlan_append "# A" "## B"). reflexivity. Defined.

(** *** The table of contents *)

Lemma headingMatch_level (line : string) (n : nat) (ttl : string) :
  headingMatch line = Some (n, ttl) →
  1 ≤ n ∧ no_newline ttl = true.
Proof.
  unfold headingMatch. destruct (span (is_code 35) line) as [hs rest].
  destruct ((1 <=? String.length hs) && (String.length hs <=? 6)) eqn:Hn;
    [|done].
  apply andb_prop in Hn as [Hn1%Nat.leb_le _].
  destruct (span is_space rest) as [ws text].
  destruct ws as [|w ws]; [by destruct text|].
  destruct text as [|t text].
  - destruct (last (String w ws)) as [c|]; [|done].
    destruct ((2 <=? String.length (String w ws))
              && negb (is_line_terminator c)) eqn:Hok; [|done].
    apply andb_prop in Hok as [_ Hterm]. intros [= <- <-].
    split; [done|]. unfold no_newline. simpl. rewrite andb_true_r.
    apply negb_true_iff, bool_decide_eq_false. intros ->.
    by vm_compute in Hterm.
  - destruct (existsb is_line_terminator (String t text)) eqn:Hterm; [done|].
    intros [= <- <-]. split; [done|].
    apply existsb_false_forallb in Hterm. unfold no_newline.
    revert Hterm. generalize (String t text). intros s.
    induction s as [|c s IH]; [done|]. simpl.
    intros [Hc Hs]%andb_prop. rewrite (IH Hs), andb_true_r.
    apply negb_true_iff, bool_decide_eq_false. intros ->.
    by vm_compute in Hc.
Qed.

Lemma id_no_newline (s : string) :
  forallb is_id_char s = true → no_newline s = true.
Proof.
  unfold no_newline. induction s as [|c s IH]; [done|]. simpl.
  intros [Hc Hs]%andb_prop. rewrite (IH Hs), andb_true_r.
  apply negb_true_iff, bool_decide_eq_false. intros ->.
  by vm_compute in Hc.
Qed.

Lemma no_newline_append (s t : string) :
  no_newline (s +:+ t) = no_newline s && no_newline t.
Proof. apply forallb_append. Qed.

Lemma indent_no_newline (n : nat) :
  no_newline (repeat_string "  " n) = true.
Proof.
  induction n as [|n IH]; [done|]. simpl repeat_string.
  by rewrite no_newline_append, IH.
Qed.

Lemma tocEntry_parsed (g : Group) :
  headingMatch (heading_line g) = Some (heading_level g, heading_title g) →
  ∃ entry, tocEntry (sectionOf g) = Some entry ∧ no_newline entry = true.
Proof.
  intros [Hlevel Htitle]%headingMatch_level. unfold tocEntry. simpl.
  destruct (heading_level g) as [|k] eqn:Hk; [lia|]. simpl.
  eexists. split; [done|].
  rewrite !no_newline_append, indent_no_newline, Htitle.
  unfold slug, replace_non_alnum.
  by rewrite (id_no_newline _ (proj1 (proj1 (replace_go_id _) false))).
Qed.

Lemma tocEntries_parsed (gs : list Group) :
  Forall (λ g, headingMatch (heading_line g)
               = Some (heading_level g, heading_title g)) gs →
  ∃ entries, mapM tocEntry (sectionOf <$> gs) = Some entries
             ∧ length entries = length gs
             ∧ Forall (λ e, no_newline e = true) entries.
Proof.
  induction 1 as [|g gs Hg _ (entries & Hmap & Hlen & Hall)].
  - by exists [].
  - destruct (tocEntry_parsed g Hg) as (entry & Hentry & Hline).
    exists (entry :: entries). rewrite fmap_cons. simpl.
    rewrite Hentry. simpl. rewrite Hmap. simpl.
    split; [done|]. split; [by rewrite Hlen|]. by constructor.
Qed.

(** X10. The table of contents of parsed sections is always made: it
    has one line for each section between three opening and two
    closing lines. *)
Theorem generateTOC_of_parsed (markdown : string) :
  ∃ toc, generateTOC (parsePlan_sections markdown) = Some toc
         ∧ length (split newline toc)
           = length (parsePlan_sections markdown) + 5.
Proof.
  rewrite parsePlan_sections_group.
  destruct (tocEntries_parsed _ (group_headings (split newline markdown)))
    as (entries & Hmap & Hlen & Hall).
  exists (join (String newline "")
               (["<nav class=" +:+ dq +:+ "toc" +:+ dq +:+ ">";
                 "<h3>Table of Contents</h3>"; "<ul>"]
                ++ entries ++ ["</ul>"; "</nav>"])).
  split; [unfold generateTOC; by rewrite Hmap|].
  rewrite split_join.
  - simpl. rewrite length_app, length_fmap, Hlen. simpl. lia.
  - done.
  - repeat (apply Forall_cons; split; [done|]).
    apply Forall_app. split; [|by repeat constructor].
    eapply Forall_impl; [exact Hall|]. done.
Qed.

End MarkdownExtra.

(** ** More on the update hub *)

Module ServerExtra.
Import Types Server ServerMore Samples ServerProps.

Lemma clients_step (h : Hub) (e : Event) :
  clients (step h e)
  = match e with
    | Connect c => if bool_decide (c ∈ clients h) then clients h
                   else clients h ++ [c]
    | Disconnect c => filter (λ c', c' ≠ c) (clients h)
    | _ => clients h
    end.
Proof. by destruct e. Qed.

Lemma clients_NoDup_step (h : Hub) (e : Event) :
  NoDup (clients h) → NoDup (clients (step h e)).
Proof.
  intros Hnd. rewrite clients_step. destruct e as [| |c|c]; try done.
  - case_bool_decide as Hc; [done|]. apply NoDup_app. repeat split; try done.
    + intros x Hx ->%list_elem_of_singleton. done.
    + apply NoDup_singleton.
  - by apply NoDup_filter.
Qed.

(** X11. No client is registered twice, whatever the order of
    connections and disconnections, so a broadcast writes one frame
    per registered client. *)
Theorem clients_registered_once (events : list Event) (message : Message) :
  NoDup (clients (run initial events))
  ∧ (broadcastUpdate (run initial events) message).*1
    = clients (run initial events).
Proof.
  split.
  - induction events as [|e events IH] using rev_ind; [constructor|].
    rewrite run_snoc. by apply clients_NoDup_step.
  - unfold broadcastUpdate. rewrite <- list_fmap_compose.
    apply list_fmap_id.
Qed.

Lemma received_app (c : Client) (l k : list (Client * Message)) :
  received c (l ++ k) = received c l ++ received c k.
Proof. unfold received. by rewrite filter_app, fmap_app. Qed.

Lemma received_each (c : Client) (cs : list Client) (m : Message) :
  NoDup cs →
  received c ((λ client, (client, m)) <$> cs)
  = if bool_decide (c ∈ cs) then [m] else [].
Proof.
  unfold received. induction cs as [|c' cs IH]; [done|].
  intros [Hc' Hcs]%NoDup_cons. specialize (IH Hcs).
  rewrite fmap_cons, filter_cons. simpl.
  destruct (decide (c' = c)) as [->|Hne].
  - rewrite fmap_cons, IH. simpl.
    rewrite (bool_decide_eq_true_2 (c ∈ c :: cs)) by left.
    by rewrite bool_decide_eq_false_2.
  - rewrite IH. case_bool_decide as Hc.
    + rewrite bool_decide_eq_true_2; [done|]. by right.
    + rewrite bool_decide_eq_false_2; [done|].
      intros [->|?]%elem_of_cons; done.
Qed.

Lemma received_broadcast (c : Client) (h : Hub) (m : Message) :
  NoDup (clients h) →
  received c (broadcastUpdate h m)
  = if bool_decide (c ∈ clients h) then [m] else [].
Proof. apply received_each. Qed.

Lemma received_frames (c : Client) (h : Hub) (e : Event) :
  NoDup (clients h) →
  received c (frames h e)
  = if bool_decide (c ∈ clients h) then option_list (message e) else [].
Proof.
  intros Hnd. destruct e as [update|state| |]; simpl.
  - by apply (received_broadcast c (mkHub _ (clients h))).
  - by apply received_broadcast.
  - by case_bool_decide.
  - by case_bool_decide.
Qed.

(** While the handlers do not throw, a registered client that does
    not disconnect is written every message once and in order. *)
Lemma received_while_connected (h : Hub) (c : Client)
    (events : list Event) :
  NoDup (clients h) → c ∈ clients h → Disconnect c ∉ events →
  received c (written h events) = messages events.
Proof.
  revert h. induction events as [|e events IH]; intros h Hnd Hc Hstay;
    [done|].
  apply not_elem_of_cons in Hstay as [He Hstay]. simpl.
  rewrite received_app, received_frames by done.
  rewrite bool_decide_eq_true_2 by done.
  rewrite IH; [| by apply clients_NoDup_step | | done].
  - unfold messages. simpl. by destruct (message e).
  - rewrite clients_step. destruct e as [| |c'|c']; try done.
    + case_bool_decide; [done|]. apply elem_of_app. by left.
    + apply list_elem_of_filter. split; [|done]. intros ->. done.
Qed.

Lemma deliverAll_handled (h : Hub) (emissions : list Emission) :
  deliverAll h emissions = written h (handled emissions)
  ∧ sent emissions = messages (handled emissions).
Proof.
  revert h. induction emissions as [|e emissions IH]; intros h; [done|].
  destruct e as [update|[state|]|c|c]; [| |done| |].
  - destruct (IH (step h (PlanEvent update))) as [IH1 IH2].
    simpl in *. by rewrite IH1, IH2.
  - destruct (IH h) as [IH1 IH2]. simpl in *. by rewrite IH1, IH2.
  - destruct (IH (connect h c)) as [IH1 IH2]. simpl in *.
    by rewrite IH1, IH2.
  - destruct (IH (disconnect h c)) as [IH1 IH2]. simpl in *.
    by rewrite IH1, IH2.
Qed.

Lemma handled_disconnect (c : Client) (emissions : list Emission) :
  Disconnected c ∉ emissions → Disconnect c ∉ handled emissions.
Proof.
  induction emissions as [|e emissions IH];
    [intros _; apply not_elem_of_nil|].
  intros [He Hrest]%not_elem_of_cons. specialize (IH Hrest).
  destruct e as [update|[state|]|c'|c']; simpl;
    try (apply not_elem_of_cons; split; [done|exact IH]).
  - apply not_elem_of_nil.
  - apply not_elem_of_cons. split; [|exact IH]. intros [= <-]. done.
Qed.

(** X12. A client that is registered and does not disconnect is
    written every plan and todo message that is emitted before the
    first [null] todo state, once each and in order, and nothing else:
    on a [null] state the todo handler throws before it broadcasts and
    the process ends, so neither that emission nor any later one
    reaches the client. *)
Theorem connected_client_receives_all (h : Hub) (c : Client)
    (emissions : list Emission) :
  NoDup (clients h) → c ∈ clients h → Disconnected c ∉ emissions →
  received c (deliverAll h emissions) = sent emissions.
Proof.
  intros Hnd Hc Hstay.
  destruct (deliverAll_handled h emissions) as [-> ->].
  apply received_while_connected; [done|done|].
  by apply handled_disconnect.
Qed.

(** A [null] todo state stops the deliveries. *)
Example deliverAll_null_state :
  received 7 (deliverAll (connect initial 7)
                [PlanEmitted (deletion "a.md" 1); TodoEmitted None;
                 PlanEmitted (deletion "b.md" 2)])
  = [PlanMessage (deletion "a.md" 1)].
Proof. reflexivity. Qed.

Lemma connected_client_receives_all_witness :
  received 7 (deliverAll (connect initial 7)
                [PlanEmitted (deletion "a.md" 1); Connected 8;
                 TodoEmitted (Some (progress 1 2));
                 PlanEmitted (deletion "b.md" 2); TodoEmitted None;
                 PlanEmitted (deletion "c.md" 3)])
  = sent [PlanEmitted (deletion "a.md" 1); Connected 8;
          TodoEmitted (Some (progress 1 2));
          PlanEmitted (deletion "b.md" 2); TodoEmitted None;
          PlanEmitted (deletion "c.md" 3)].
Proof.
  apply (connected_client_receives_all (connect initial 7) 7).
  - apply (bool_decide_eq_true_1 _). reflexivity.
  - apply (bool_decide_eq_true_1 _). reflexivity.
  - apply (bool_decide_eq_true_1 _). reflexivity.
Defined.

(** X13. A client that is not registered and does not connect is
    written nothing: what was broadcast before a client connects, or
    after it has disconnected, never reaches it. *)
Theorem absent_client_receives_nothing (h : Hub) (c : Client)
    (events : list Event) :
  NoDup (clients h) → c ∉ clients h → Connect c ∉ events →
  received c (written h events) = [].
Proof.
  revert h. induction events as [|e events IH]; intros h Hnd Hc Haway;
    [done|].
  apply not_elem_of_cons in Haway as [He Haway]. simpl.
  rewrite received_app, received_frames by done.
  rewrite bool_decide_eq_false_2 by done.
  apply IH; [by apply clients_NoDup_step | | done].
  rewrite clients_step. destruct e as [| |c'|c']; try done.
  - case_bool_decide as Hin; [done|].
    intros [?|Heq%list_elem_of_singleton]%elem_of_app; [done|].
    by subst c'.
  - intros Hin. by apply list_elem_of_filter in Hin as [_ Hin].
Qed.

Lemma absent_client_receives_nothing_witness :
  received 7 (written (disconnect (connect initial 7) 7)
                [PlanEvent (deletion "a.md" 1); Connect 8;
                 PlanEvent (deletion "b.md" 2)])
  = [].
Proof.
  apply (absent_client_receives_nothing (disconnect (connect initial 7) 7) 7).
  - apply (bool_decide_eq_true_1 _). reflexivity.
  - apply (bool_decide_eq_true_1 _). reflexivity.
  - apply (bool_decide_eq_true_1 _). reflexivity.
Defined.

Lemma history_keys (events : list Event) (name : string) :
  (getHistory (run initial events) name = None ↔ arrivals name events = [])
  ∧ ∀ hist, getHistory (run initial events) name = Some hist →
            history_filename hist = name.
Proof.
  induction events as [|e events [IHnone IHkey]] using rev_ind; [done|].
  rewrite run_snoc, arrivals_snoc. unfold getHistory in *.
  destruct e as [update| | |];
    try (simpl; rewrite app_nil_r; by split).
  unfold arrival. simpl step. unfold recordUpdate.
  destruct (decide (type update ≠ deleted)) as [Hty|Hdel].
  - destruct (decide (filename (file update) = name)) as [<-|Hne].
    + rewrite decide_True by done. simpl. rewrite lookup_insert_eq. split.
      * split; [done|]. by intros [_ ?]%app_eq_nil.
      * intros hist [= <-]. simpl.
        destruct (planHistory (run initial events) !! filename (file update))
          as [old|] eqn:Hold; simpl; [by apply IHkey|done].
    + rewrite decide_False by (by intros [_ ?]). simpl.
      rewrite lookup_insert_ne, app_nil_r by done. by split.
  - rewrite decide_False by (by intros [? _]). simpl. rewrite app_nil_r.
    by split.
Qed.

Lemma last10_nil {A} (l : list A) : last10 l = [] → l = [].
Proof.
  unfold last10. intros Hl. apply (f_equal length) in Hl.
  rewrite length_drop in Hl. simpl in Hl.
  destruct l; [done|]. simpl in Hl. lia.
Qed.

(** X14. The history of a file name is missing exactly as long as no
    created or modified update of that name has arrived; once there it
    stays, whatever is deleted, it is filed under its own name and it
    holds at least one version. *)
Theorem history_record (events : list Event) (name : string) :
  (getHistory (run initial events) name = None
   ↔ arrivals name events = [])
  ∧ (∀ hist, getHistory (run initial events) name = Some hist →
             history_filename hist = name ∧ versions hist ≠ [])
  ∧ (∀ more, is_Some (getHistory (run initial events) name) →
             is_Some (getHistory (run initial (events ++ more)) name)).
Proof.
  destruct (history_keys events name) as [Hnone Hkey].
  split; [done|]. split.
  - intros hist Hhist. split; [by apply Hkey|]. intros Hempty.
    pose proof (versionsOf_run events name) as Hversions.
    unfold versionsOf in Hversions. rewrite Hhist, Hempty in Hversions.
    symmetry in Hversions. apply last10_nil, Hnone in Hversions. congruence.
  - intros more Hsome.
    destruct (getHistory (run initial (events ++ more)) name) eqn:Hmore;
      [done|].
    apply (proj1 (history_keys (events ++ more) name)) in Hmore.
    unfold arrivals in Hmore. rewrite omap_app in Hmore.
    apply app_eq_nil in Hmore as [Hmore _].
    apply Hnone in Hmore. rewrite Hmore in Hsome. by destruct Hsome.
Qed.

Lemma history_record_witness :
  history_filename
    (mkPlanHistory "a.md" (drop 5 fifteen)) = "a.md"
  ∧ versions (mkPlanHistory "a.md" (drop 5 fifteen)) ≠ [].
Proof.
  apply (proj1 (proj2 (history_record
                         ((modification "a.md" <$> fifteen)
                          ++ [PlanEvent (deletion "a.md" 99)])
                         "a.md"))).
  reflexivity.
Defined.

End ServerExtra.

(** ** The plan watcher *)

Module PlanWatcherProps.
Import Types Markdown Server ServerMore TodoWatcher PlanWatcher
       JsStringFacts MarkdownExtra ServerProps TodoProps.

Lemma last_nonempty_snoc (pieces : list string) (file : string) :
  file ≠ "" →
  list.last (filter (λ piece, piece ≠ "") (pieces ++ [file])) = Some file.
Proof.
  intros Hfile. rewrite filter_app, filter_cons, decide_True by done.
  simpl. apply last_snoc.
Qed.

(** X15. The base name of a file name put after a directory and a
    slash is the file name, when the file name is not empty and holds
    no slash. *)
Theorem basename_of_joined (dir file : string) :
  file ≠ "" →
  JsString.forallb (λ c, negb (bool_decide (c = "/"%char))) file = true →
  basename (dir +:+ "/" +:+ file) = file.
Proof.
  intros Hfile Hslash. unfold basename.
  change (dir +:+ "/" +:+ file) with (dir +:+ String "/" file).
  rewrite split_append, (split_no_sep _ _ Hslash).
  by rewrite last_nonempty_snoc.
Qed.

Lemma basename_of_joined_witness :
  basename ("/home/me/.claude/plans" +:+ "/" +:+ "a.md") = "a.md".
Proof.
  apply (basename_of_joined "/home/me/.claude/plans" "a.md");
    [discriminate | reflexivity].
Defined.

(** *** From the watcher to the hub *)

Lemma last_kept {A} (l : list A) (x : A) :
  list.last (let pushed := l ++ [x] in
             if 10 <? length pushed then shift pushed else pushed)
  = Some x.
Proof.
  cbv zeta. destruct (10 <? length (l ++ [x])) eqn:Hlen;
    [|apply last_snoc].
  apply Nat.ltb_lt in Hlen. rewrite length_app in Hlen. simpl in Hlen.
  destruct l as [|y l]; [simpl in Hlen; lia|]. simpl.
  apply last_snoc.
Qed.

(** X16. When the changed or added file can be read, the hub files
    the content read as the newest version under the base name of the
    path, stamped with the time of the event, and writes one frame to
    every client. *)
Theorem change_is_recorded (h : Hub) (fs : Dir) (now later : Z)
    (t : ChangeType) (filePath content : string) (mtime : Z) :
  readFile fs filePath = Some content →
  stat fs filePath = Some mtime →
  let e := match t with Created => Add filePath
                      | Modified => Change filePath end in
  list.last (versionsOf (deliver h fs now later e).1 (basename filePath))
  = Some (mkVersion content now)
  ∧ (deliver h fs now later e).2.*1 = clients h.
Proof.
  intros Hread Hstat. cbv zeta.
  assert (deliver h fs now later
            match t with Created => Add filePath | Modified => Change filePath end
          = onPlanUpdate h
              (mkPlanUpdate (updateType t)
                 (mkPlanFile (basename filePath) filePath content mtime) now))
    as ->.
  { unfold deliver. destruct t; simpl; unfold handleFileChange;
      by rewrite Hread, Hstat. }
  split.
  - set (update := mkPlanUpdate _ _ _).
    change (onPlanUpdate h update).1 with (step h (PlanEvent update)).
    change (basename filePath) with (filename (file update)).
    rewrite versionsOf_recordUpdate_same by (by destruct t).
    apply last_kept.
  - simpl. unfold broadcastUpdate. simpl. rewrite <- list_fmap_compose.
    apply list_fmap_id.
Qed.

Lemma change_is_recorded_witness :
  list.last (versionsOf
               (deliver initial plans_fs 5 6 (Change "/plans/a.md")).1
               (basename "/plans/a.md"))
  = Some (mkVersion "# A" 5)
  ∧ (deliver initial plans_fs 5 6 (Change "/plans/a.md")).2.*1
    = clients initial.
Proof.
  apply (change_is_recorded initial plans_fs 5 6 Modified "/plans/a.md"
           "# A" 20); reflexivity.
Defined.

(** X17. When the read or the stat of the changed or added file
    fails, the event is dropped: the hub stays as it is and nothing is
    written to any client. *)
Theorem failed_read_is_dropped (h : Hub) (fs : Dir) (now later : Z)
    (filePath : string) :
  readFile fs filePath = None ∨ stat fs filePath = None →
  deliver h fs now later (Add filePath) = (h, [])
  ∧ deliver h fs now later (Change filePath) = (h, []).
Proof.
  intros Hfail. unfold deliver, dispatch, handleFileChange.
  destruct Hfail as [->| ->]; [done|].
  by destruct (readFile fs filePath).
Qed.

Lemma failed_read_is_dropped_witness :
  deliver initial plans_fs 5 6 (Add "/plans/gone.md") = (initial, [])
  ∧ deliver initial plans_fs 5 6 (Change "/plans/gone.md") = (initial, []).
Proof.
  apply (failed_read_is_dropped initial plans_fs 5 6 "/plans/gone.md").
  left. reflexivity.
Defined.

(** *** [listPlans] and the plan route *)

Section Listing.
Variable pathOf : string → string.

Lemma planFile_Some (fs : Dir) (file : string) (plan : PlanFile) :
  planFile pathOf fs file = Some plan →
  filename plan = file
  ∧ path plan = pathOf file
  ∧ readFile fs (pathOf file) = Some (file_content plan)
  ∧ stat fs (pathOf file) = Some (lastModified plan).
Proof.
  unfold planFile. intros Hplan.
  destruct (readFile fs (pathOf file)) as [content|]; simpl in Hplan;
    [|done].
  destruct (stat fs (pathOf file)) as [mtime|]; simpl in Hplan; [|done].
  by injection Hplan as <-.
Qed.

Lemma listPlans_cases (fs : Dir) :
  (listPlans_try pathOf fs = None ∧ listPlans pathOf fs = [])
  ∨ ∃ files plans,
      readdir fs = Some files
      ∧ mapM (planFile pathOf fs) (List.filter isMdFile files) = Some plans
      ∧ listPlans pathOf fs = sort (after_key lastModified) plans.
Proof.
  unfold listPlans, listPlans_try.
  destruct (readdir fs) as [files|]; simpl; [|by left].
  destruct (mapM _ _) as [plans|] eqn:Hmap; simpl; [|by left].
  right. by exists files, plans.
Qed.

(** X18. The listing is in descending order of modification time;
    each plan in it is a markdown file of the directory with the
    content and time read from its path; and when every markdown
    file could be read, the listing names each of them once, in some
    order. *)
Theorem listPlans_snapshot (fs : Dir) :
  StronglySorted (descending lastModified) (listPlans pathOf fs)
  ∧ (∀ plan, plan ∈ listPlans pathOf fs →
             isMdFile (filename plan) = true
             ∧ path plan = pathOf (filename plan)
             ∧ readFile fs (pathOf (filename plan))
               = Some (file_content plan)
             ∧ stat fs (pathOf (filename plan))
               = Some (lastModified plan))
  ∧ (∀ files,
       readdir fs = Some files →
       Forall (λ file, is_Some (readFile fs (pathOf file))
                       ∧ is_Some (stat fs (pathOf file)))
              (List.filter isMdFile files) →
       filename <$> listPlans pathOf fs ≡ₚ List.filter isMdFile files).
Proof.
  destruct (listPlans_cases fs)
    as [[Htry ->]|(files & plans & Hrd & Hmap & ->)].
  - split; [constructor|]. split; [by intros plan ?%elem_of_nil|].
    intros files Hrd Hall. exfalso. unfold listPlans_try in Htry.
    rewrite Hrd in Htry. simpl in Htry.
    destruct (mapM _ _) eqn:Hmap; [done|].
    apply mapM_None, Exists_exists in Hmap as (file & Hfile & Hnone).
    rewrite Forall_forall in Hall.
    destruct (Hall file Hfile) as [[content Hc] [mtime Hm]].
    unfold planFile in Hnone. by rewrite Hc, Hm in Hnone.
  - pose proof (sort_perm lastModified plans) as Hperm.
    apply mapM_Some in Hmap.
    split; [apply sort_sorted|]. split.
    + intros plan Hplan. rewrite Hperm in Hplan.
      apply list_elem_of_lookup_1 in Hplan as [i Hi].
      destruct (Forall2_lookup_r _ _ _ i plan Hmap Hi)
        as (file & Hfile & Hplan).
      apply planFile_Some in Hplan as (-> & ? & ? & ?).
      apply list_elem_of_lookup_2, list_elem_of_In, filter_In in Hfile.
      by destruct Hfile.
    + intros files' Hrd' _. assert (files' = files) as -> by congruence.
      rewrite Hperm. clear Hperm Hrd Hrd'.
      induction Hmap as [|file plan fs' ps Hplan Hrest IH]; [done|].
      apply planFile_Some in Hplan as (<- & _). simpl. by rewrite IH.
Qed.

(** X19. When the directory cannot be listed, or the read or stat of
    one markdown file fails, the listing is empty. *)
Theorem listPlans_one_failure (fs : Dir) :
  readdir fs = None
  ∨ (∃ files file,
       readdir fs = Some files ∧ file ∈ files ∧ isMdFile file = true
       ∧ (readFile fs (pathOf file) = None
          ∨ stat fs (pathOf file) = None)) →
  listPlans pathOf fs = [].
Proof.
  unfold listPlans, listPlans_try.
  intros [->|(files & file & -> & Hin & Hmd & Hfail)]; [done|]. simpl.
  assert (mapM (planFile pathOf fs) (List.filter isMdFile files) = None)
    as ->; [|done].
  apply mapM_None, Exists_exists. exists file. split.
  - by apply list_elem_of_In, filter_In; split; [apply list_elem_of_In|].
  - unfold planFile. destruct Hfail as [->| ->]; [done|].
    by destruct (readFile fs (pathOf file)).
Qed.

(** X20. The plan route answers with a plan of the listing that has
    the requested name, together with the sections and steps parsed
    from its content; it answers 404 exactly when the listing has no
    plan of that name. *)
Theorem getPlan_found (fs : Dir) (name : string) :
  (∀ plan secs steps,
     getPlan pathOf fs name = Some (plan, secs, steps) →
     plan ∈ listPlans pathOf fs
     ∧ filename plan = name
     ∧ secs = parsePlan_sections (file_content plan)
     ∧ steps = parsePlan_steps (file_content plan))
  ∧ (getPlan pathOf fs name = None
     ↔ name ∉ filename <$> listPlans pathOf fs).
Proof.
  unfold getPlan. split.
  - intros plan secs steps Hget.
    destruct (List.find _ _) as [found|] eqn:Hfind; [|done].
    simpl in Hget. injection Hget as <- <- <-.
    apply find_some in Hfind as [Hin Hname].
    apply bool_decide_eq_true in Hname.
    repeat split; try done. by apply list_elem_of_In.
  - destruct (List.find _ _) as [found|] eqn:Hfind; simpl.
    + split; [done|]. intros Hno. exfalso. apply Hno.
      apply find_some in Hfind as [Hin Hname].
      apply bool_decide_eq_true in Hname. subst name.
      apply list_elem_of_fmap. exists found.
      split; [done|]. by apply list_elem_of_In.
    + split; [|done]. intros _ (plan & -> & Hin)%list_elem_of_fmap.
      apply list_elem_of_In in Hin.
      pose proof (find_none _ _ Hfind plan Hin) as Hno. simpl in Hno.
      by apply bool_decide_eq_false in Hno.
Qed.

End Listing.

Example listPlans_plans_fs :
  listPlans in_plans plans_fs
  = [mkPlanFile "a.md" "/plans/a.md" "# A" 20;
     mkPlanFile "b.md" "/plans/b.md" "# B" 10].
Proof. reflexivity. Qed.

Lemma listPlans_snapshot_witness :
  filename <$> listPlans in_plans plans_fs
  ≡ₚ List.filter isMdFile ["b.md"; "notes.txt"; "a.md"].
Proof.
  apply (proj2 (proj2 (listPlans_snapshot in_plans plans_fs))).
  - reflexivity.
  - repeat constructor; by eexists.
Defined.

Lemma listPlans_one_failure_witness :
  listPlans (λ file, "/elsewhere/" +:+ file) plans_fs = [].
Proof.
  apply (listPlans_one_failure (λ file, "/elsewhere/" +:+ file) plans_fs).
  right. exists ["b.md"; "notes.txt"; "a.md"], "a.md".
  split; [reflexivity|]. split; [apply (bool_decide_eq_true_1 _); reflexivity|].
  split; [reflexivity|]. left. reflexivity.
Defined.

Lemma getPlan_found_witness :
  mkPlanFile "b.md" "/plans/b.md" "# B" 10 ∈ listPlans in_plans plans_fs
  ∧ filename (mkPlanFile "b.md" "/plans/b.md" "# B" 10) = "b.md"
  ∧ [mkPlanSection 1 "B" "" "b"]
    = parsePlan_sections
        (file_content (mkPlanFile "b.md" "/plans/b.md" "# B" 10))
  ∧ [] = parsePlan_steps
           (file_content (mkPlanFile "b.md" "/plans/b.md" "# B" 10)).
Proof.
  apply (proj1 (getPlan_found in_plans plans_fs "b.md")). reflexivity.
Defined.

End PlanWatcherProps.

(** ** More on the todo watcher *)

Module TodoExtra.
Import JsString JsStringFacts Types TodoWatcher Samples TodoMore
       MarkdownExtra TodoProps.

(** *** [calculateStats] *)

Lemma count_cons (st : Status) (t : TodoTask) (ts : list TodoTask)
    (sid : string) (updated : Z) :
  count st (mkTodoState sid (t :: ts) updated)
  = (if bool_decide (status t = st) then 1 else 0)
    + count st (mkTodoState sid ts updated).
Proof. unfold count. simpl. by case_bool_decide. Qed.

(** X21. The three counts add up to the total. *)
Theorem calculateStats_counts_add_up (state : TodoState) :
  stats_pending (calculateStats state)
  + stats_inProgress (calculateStats state)
  + stats_completed (calculateStats state)
  = total (calculateStats state).
Proof.
  destruct state as [sid ts updated]. simpl.
  induction ts as [|t ts IH]; [done|].
  rewrite !count_cons. simpl length. rewrite <- IH.
  destruct (status t); repeat case_bool_decide; try done; lia.
Qed.

(** The statistics do not depend on the order of the tasks. *)
Lemma calculateStats_order (state state' : TodoState) :
  tasks state ≡ₚ tasks state' →
  calculateStats state = calculateStats state'.
Proof.
  intros Hperm.
  assert (∀ st, count st state = count st state') as Hcount.
  { intros st. unfold count.
    induction Hperm as [|t ts ts' _ IH|t t' ts|ts ts' ts'' _ IH1 _ IH2];
      simpl; [done| |by repeat case_bool_decide|congruence].
    case_bool_decide; simpl; by rewrite IH. }
  unfold calculateStats.
  by rewrite !Hcount, (Permutation_length Hperm).
Qed.

(** *** [generateActiveForm] and the session id *)

Lemma no_space_split (w : string) :
  forallb (λ c, negb (bool_decide (c = " "%char))) w = true →
  split " " w = [w].
Proof. apply split_no_sep. Qed.

(** X22. Only the first word is touched: for a first word without a
    space, what follows the first space of the content is kept as it
    is, further spaces included. *)
Theorem generateActiveForm_keeps_rest (firstWord rest : string) :
  forallb (λ c, negb (bool_decide (c = " "%char))) firstWord = true →
  generateActiveForm (firstWord +:+ " " +:+ rest)
  = activeWord firstWord +:+ " " +:+ rest.
Proof.
  intros Hword. unfold generateActiveForm.
  change (firstWord +:+ " " +:+ rest) with (firstWord +:+ String " " rest).
  rewrite split_append, (split_no_sep _ _ Hword). simpl.
  by rewrite (join_split " " rest).
Qed.

Lemma generateActiveForm_keeps_rest_witness :
  generateActiveForm ("Fix" +:+ " " +:+ " the  bug ")
  = activeWord "Fix" +:+ " " +:+ " the  bug ".
Proof.
  apply (generateActiveForm_keeps_rest "Fix" " the  bug "). reflexivity.
Defined.

Lemma split_head (sep : ascii) (s : string) :
  ∃ first rest,
    split sep s = first :: rest
    ∧ forallb (λ c, negb (bool_decide (c = sep))) first = true
    ∧ (s = first ∨ ∃ tail, s = first +:+ String sep tail).
Proof.
  induction s as [|c s (first & rest & Hsplit & Hfirst & Hs)].
  - exists "", []. split; [done|]. split; [done|]. by left.
  - simpl. case_bool_decide as Hc.
    + subst c. exists "", (split sep s).
      split; [done|]. split; [done|]. right. by exists s.
    + rewrite Hsplit. exists (String c first), rest.
      split; [done|]. split.
      * simpl. by rewrite bool_decide_eq_false_2, Hfirst.
      * destruct Hs as [->|[tail ->]]; [by left|]. right. by exists tail.
Qed.

(** X23. The session id is the file name up to its first hyphen: it
    holds no hyphen, and the file name is the id itself or the id, a
    hyphen and a rest. *)
Theorem sessionIdOf_prefix (name : string) :
  forallb (λ c, negb (bool_decide (c = "-"%char))) (sessionIdOf name) = true
  ∧ (name = sessionIdOf name
     ∨ ∃ rest, name = sessionIdOf name +:+ "-" +:+ rest).
Proof.
  unfold sessionIdOf.
  destruct (split_head "-" name) as (first & rest & -> & Hfirst & Hname).
  split; [done|]. destruct Hname as [->|[tail ->]]; [by left|].
  right. by exists tail.
Qed.

Lemma length_append (s t : string) :
  String.length (s +:+ t) = String.length s + String.length t.
Proof.
  induction s as [|c s IH]; [done|]. rewrite append_cons. simpl.
  by rewrite IH.
Qed.

Lemma length_drop_last (s : string) :
  s ≠ "" → S (String.length (drop_last s)) = String.length s.
Proof.
  induction s as [|c s IH]; [done|]. intros _. destruct s as [|d s]; [done|].
  change (drop_last (String c (String d s)))
    with (String c (drop_last (String d s))).
  simpl in *. by rewrite IH.
Qed.

Lemma activeWord_longer (w : string) :
  String.length w + 2 ≤ String.length (activeWord w).
Proof.
  unfold activeWord. destruct (endsWith w "e") eqn:He.
  - rewrite length_append. simpl.
    assert (w ≠ "") as Hw by (by intros ->).
    pose proof (length_drop_last w Hw). lia.
  - destruct (matches_cvc w); rewrite !length_append; simpl; lia.
Qed.

(** The active form is never the content itself: it is longer by at
    least two characters. *)
Lemma generateActiveForm_longer (content : string) :
  String.length content + 2 ≤ String.length (generateActiveForm content).
Proof.
  unfold generateActiveForm.
  rewrite <- (join_split " " content) at 1.
  pose proof (split_nonempty " " content) as Hne.
  destruct (split " " content) as [|w rest]; [done|].
  pose proof (activeWord_longer w).
  rewrite !length_append.
  destruct rest as [|w' rest]; [simpl; lia|].
  change (join " " (w :: w' :: rest))
    with (w +:+ " " +:+ join " " (w' :: rest)).
  rewrite !length_append. lia.
Qed.

(** *** Loading *)

Section Loading.
Variable JSON_parse : string → option json.

(** X24. The live state is the archived view of the newest file:
    once a file is selected, the reload builds the state that
    [loadSession] builds for that file name. *)
Theorem live_state_is_newest_session (dir : Dir) (now : Z) (m : FileStat) :
  selected dir = Some m →
  loadState_try JSON_parse dir now
  = loadSession JSON_parse dir (stat_file m).
Proof.
  intros Hsel. rewrite (loadState_try_selected _ dir now m Hsel).
  destruct (selected_newest dir m Hsel) as (files & _ & _ & Hstat & _).
  unfold load_selected, loadSession. rewrite Hstat.
  destruct (readFile dir (stat_file m)) as [content|]; simpl; [|done].
  by destruct (JSON_parse content).
Qed.

Lemma mapTodo_Some (mtime : Z) (todo : json) (t : TodoTask) :
  mapTodo mtime todo = Some t →
  prop todo "content" = Some (Some (JStr (task_content t)))
  ∧ activeForm t = generateActiveForm (task_content t)
  ∧ task_timestamp t = Some mtime.
Proof.
  unfold mapTodo. intros Ht.
  destruct (prop todo "content") as [[[]|]|]; try done.
  destruct (prop todo "status"); [|done]. by injection Ht as <-.
Qed.

(** X25. A session that loads has one task for each record of the
    file, in the order of the file: the task has the content string
    of its record and the active form made from it, and every task
    carries the modification time of the file, which is also the
    state's [lastUpdated]. *)
Theorem loadSession_tasks (dir : Dir) (name : string) (st : TodoState) :
  loadSession JSON_parse dir name = Some st →
  stat dir name = Some (lastUpdated st)
  ∧ sessionId st = sessionIdOf name
  ∧ ∃ content items,
      readFile dir name = Some content
      ∧ JSON_parse content = Some (JArr items)
      ∧ Forall2 (λ todo t,
                   prop todo "content"
                   = Some (Some (JStr (task_content t)))
                   ∧ activeForm t = generateActiveForm (task_content t)
                   ∧ task_timestamp t = Some (lastUpdated st))
                items (tasks st).
Proof.
  intros Hst.
  apply loadSession_load_selected in Hst as (mtime & Hstat & Hst).
  apply load_selected_Some in Hst
    as (content & items & Hread & Hparse & Hmap & Hid & Hupdated).
  simpl in *. rewrite Hupdated. split; [done|]. split; [done|].
  exists content, items. split; [done|]. split; [done|].
  apply mapM_Some in Hmap. eapply Forall2_impl; [exact Hmap|].
  intros todo t. apply mapTodo_Some.
Qed.

(** X26. One record that is [null] or whose content is no string
    spoils the whole file: [loadSession] gives nothing for it, and
    when it is the selected file the live state stays as it was. *)
Theorem bad_record_spoils_file (dir : Dir) (name content : string)
    (items : list json) (todo : json) :
  readFile dir name = Some content →
  JSON_parse content = Some (JArr items) →
  todo ∈ items →
  (∀ text, prop todo "content" ≠ Some (Some (JStr text))) →
  loadSession JSON_parse dir name = None
  ∧ ∀ now mtime currentState,
      selected dir = Some (mkFileStat name mtime) →
      loadState JSON_parse dir now currentState = currentState.
Proof.
  intros Hread Hparse Hin Hbad.
  assert (∀ mtime, mapM (mapTodo mtime) items = None) as Hmap.
  { intros mtime. apply mapM_None, Exists_exists. exists todo.
    split; [done|]. unfold mapTodo.
    destruct (prop todo "content") as [[[]|]|] eqn:Hc; try done.
    by destruct (Hbad s). }
  split.
  - unfold loadSession. rewrite Hread. simpl. rewrite Hparse. simpl.
    destruct (stat dir name); [|done]. simpl. by rewrite Hmap.
  - intros now mtime currentState Hsel. unfold loadState.
    rewrite (loadState_try_selected _ dir now _ Hsel).
    unfold load_selected. simpl. rewrite Hread. simpl. rewrite Hparse.
    simpl. by rewrite Hmap.
Qed.

Lemma listed_sessions_have_tasks (dir : Dir) (s : SessionInfo) :
  s ∈ listSessions JSON_parse dir → session_with_tasks JSON_parse dir s.
Proof.
  destruct (listSessions_cases JSON_parse dir)
    as [->|(files & sessions & Hrd & Hmap)]; [by intros ?%elem_of_nil|].
  rewrite (listSessions_unfold _ _ _ _ Hrd Hmap).
  intros (i & Hs & _)%elem_of_take.
  apply list_elem_of_lookup_2 in Hs.
  rewrite (sort_perm session_lastUpdated) in Hs.
  apply list_elem_of_In, filter_In in Hs as [Hs Hcount].
  apply (listed_session_with_tasks _ dir files sessions); try done.
  - by apply list_elem_of_In.
  - by apply Nat.ltb_lt.
Qed.

(** X27. A listed session that loads has as many tasks as the
    listing counts and the [lastUpdated] the listing shows. *)
Theorem listed_session_loads_alike (dir : Dir) (s : SessionInfo)
    (st : TodoState) :
  s ∈ listSessions JSON_parse dir →
  loadSession JSON_parse dir (session_filename s) = Some st →
  length (tasks st) = taskCount s
  ∧ lastUpdated st = session_lastUpdated s.
Proof.
  intros Hs Hst.
  destruct (listed_sessions_have_tasks dir s Hs)
    as (files & content & items & _ & _ & _ & Hstat & Hread & Hparse
        & _ & Hcount).
  apply loadSession_load_selected in Hst as (mtime & Hstat' & Hst).
  apply load_selected_Some in Hst
    as (content' & items' & Hread' & Hparse' & Hmap & _ & Hupdated).
  simpl in *. rewrite Hread in Hread'. injection Hread' as <-.
  rewrite Hparse in Hparse'. injection Hparse' as <-.
  split; [|congruence].
  apply mapM_Some, Forall2_length in Hmap. congruence.
Qed.

End Loading.

Lemma live_state_is_newest_session_witness :
  loadState_try sample_parse good_dir 7
  = loadSession sample_parse good_dir "aaa-agent-aaa.json".
Proof.
  apply (live_state_is_newest_session sample_parse good_dir 7
           (mkFileStat "aaa-agent-aaa.json" 300)).
  reflexivity.
Defined.

Lemma loadSession_tasks_witness :
  stat good_dir "ccc-agent-ccc.json" = Some 200%Z.
Proof.
  refine (proj1 (loadSession_tasks sample_parse good_dir
                   "ccc-agent-ccc.json"
                   (mkTodoState "ccc"
                      [mkTodoTask "Deploy" "Deployying " in_progress
                                  (Some 200%Z)]
                      200)
                   _)).
  reflexivity.
Defined.

Lemma bad_record_spoils_file_witness :
  loadSession spoiled_parse spoiled_dir "ddd-agent-ddd.json" = None.
Proof.
  refine (proj1 (bad_record_spoils_file spoiled_parse spoiled_dir
                   "ddd-agent-ddd.json" "SPOILED" spoiled_todos JNull
                   _ _ _ _)).
  - reflexivity.
  - reflexivity.
  - unfold spoiled_todos. apply list_elem_of_further, list_elem_of_here.
  - intros text. simpl. discriminate.
Defined.

Lemma listed_session_loads_alike_witness :
  length [mkTodoTask "Deploy" "Deployying " in_progress (Some 200%Z)] = 1
  ∧ 200%Z = 200%Z.
Proof.
  apply (listed_session_loads_alike sample_parse good_dir
           (mkSessionInfo "ccc-agent-ccc.json" 200 1)
           (mkTodoState "ccc"
              [mkTodoTask "Deploy" "Deployying " in_progress (Some 200%Z)]
              200)).
  - apply (bool_decide_eq_true_1 _). reflexivity.
  - reflexivity.
Defined.

End TodoExtra.

(** ** The command line *)

Module CliProps.
Import JsString Cli.

Example main_defaults : main [] None = Start 8888 None.
Proof. reflexivity. Qed.

Example main_todo_port :
  main ["todo"; "--port"; "3000"] None = Start 3000 (Some TodoView).
Proof. reflexivity. Qed.

Example main_unknown : main ["--verbose"] None = Exit 1.
Proof. reflexivity. Qed.

Example main_port_text : main ["--port"; "80abc"] None = Start 80 None.
Proof. reflexivity. Qed.

Example main_port_without_value :
  main ["--port"] (Some "9999") = Start 8888 None.
Proof. reflexivity. Qed.

(** X28. The server is only started on a port from 1 to 65535,
    whatever the arguments and the environment say. *)
Theorem main_port_in_range (args : list string) (env : option string)
    (p : Z) (v : option View) :
  main args env = Start p v → (1 ≤ p ≤ 65535)%Z.
Proof.
  unfold main. destruct (readArgs args defaults) as [code|o]; [done|].
  destruct (match env with Some _ => _ | None => _ end) as [q|]; [|done].
  destruct ((q <? 1)%Z || (65535 <? q)%Z) eqn:Hq; [done|].
  intros [= <- _]. apply orb_false_iff in Hq as [H1%Z.ltb_ge H2%Z.ltb_ge].
  lia.
Qed.

Lemma main_port_in_range_witness : (1 ≤ 3000 ≤ 65535)%Z.
Proof.
  apply (main_port_in_range ["todo"; "--port"; "3000"] None 3000
           (Some TodoView)).
  reflexivity.
Defined.

(** X29. When [--port] is among the arguments the [PORT] variable of
    the environment is not looked at, also when the flag came last and
    had no value. *)
Theorem port_flag_hides_environment (args : list string)
    (env : option string) :
  "--port" ∈ args → main args env = main args None.
Proof.
  intros Hflag. unfold main.
  destruct (readArgs args defaults) as [code|o]; [done|].
  destruct env as [text|]; [|done].
  by rewrite (bool_decide_eq_true_2 _ Hflag), andb_false_r.
Qed.

Lemma port_flag_hides_environment_witness :
  main ["plan"; "--port"] (Some "9999") = main ["plan"; "--port"] None.
Proof.
  apply (port_flag_hides_environment ["plan"; "--port"] (Some "9999")).
  apply (bool_decide_eq_true_1 _). reflexivity.
Defined.

Lemma checked_from_spec (start count : N) :
  (checked_from start count).1 = (start + count)%N
  ∧ ((checked_from start count).2 = true →
     ∀ p, (start ≤ p < start + count)%N → check_port p = true).
Proof.
  unfold checked_from.
  induction count as [|count [IHfst IHsnd]] using N.peano_ind.
  - simpl. split; [lia|]. intros _ p Hp. lia.
  - rewrite N.iter_succ. unfold check_step at 1. simpl. rewrite IHfst.
    split; [lia|]. intros [Hrest Hlast]%andb_prop p Hp.
    destruct (decide (p = start + count)%N) as [->|Hne]; [done|].
    apply (IHsnd Hrest). lia.
Qed.

Lemma ports_checked : (checked_from 1 65535).2 = true.
Proof. by vm_compute. Qed.

(** X30. Every port from 1 to 65535 written in decimal after [--port]
    is the port the server is started on. *)
Theorem port_argument_is_used (p : N) :
  (1 ≤ p ≤ 65535)%N →
  main ["--port"; decimal p] None = Start (Z.of_N p) None.
Proof.
  intros Hp. apply (bool_decide_eq_true_1 _).
  apply (proj2 (checked_from_spec 1 65535) ports_checked). lia.
Qed.

Lemma port_argument_is_used_witness :
  main ["--port"; decimal 8080] None = Start 8080 None.
Proof. apply (port_argument_is_used 8080). lia. Defined.

End CliProps.
